(** * The List component and the ConfigProvider of ant-design

    A shallow embedding of [components/list/index.tsx] (the function component
    [List]) and of [components/config-provider/index.tsx] (the class
    [ConfigProvider]), with the properties of their pagination arithmetic,
    slicing, key assignment, body selection, event handlers and context
    merging.

    Conventions of the embedding.
    - A JavaScript number is a [num]: an integer, [Infinity], [-Infinity] or
      [NaN].  Page numbers, page sizes and array lengths are integers; the
      specials arise from the division by a zero page size.  Fractional
      numbers are outside the model, the two zeros are identified, and
      quotients are exact (they are, in IEEE doubles, for arguments below
      2^53).
    - A field of a props object is an [option]: [None] when the key is
      absent.  A numeric field explicitly set to [undefined] is [Some NaN]:
      every use of those fields in this code is arithmetic, where
      [undefined] coerces to [NaN].
    - Arrays live in a heap and are handled by reference, as in JavaScript;
      the hook cells of [React.useState] and the invocations of the caller's
      handlers are part of the same [world].
    - The derivation of the CSS class string is not part of the model. *)

From Stdlib Require Import ZArith Lia.
From stdpp Require Import base option list strings gmap pretty.

Local Open Scope Z_scope.

(** ** JavaScript numbers *)

Module JS.

Inductive num : Type :=
| Int (z : Z)
| PInf
| NInf
| NaN.

#[global] Instance num_eq_dec : EqDecision num.
Proof. solve_decision. Defined.

(** [a > b] *)
Definition gt (a b : num) : bool :=
  match a, b with
  | NaN, _ | _, NaN => false
  | Int x, Int y => bool_decide (y < x)
  | PInf, PInf => false
  | PInf, _ => true
  | NInf, _ => false
  | Int _, PInf => false
  | Int _, NInf => true
  end.

(** [a - 1] *)
Definition pred (a : num) : num :=
  match a with
  | Int x => Int (x - 1)
  | other => other
  end.

(** The sign of a number that is neither [NaN] nor zero. *)
Definition negative (a : num) : bool :=
  match a with
  | Int x => bool_decide (x < 0)
  | NInf => true
  | _ => false
  end.

Definition is_zero (a : num) : bool :=
  match a with
  | Int 0 => true
  | _ => false
  end.

Definition signed_inf (neg : bool) : num := if neg then NInf else PInf.

(** [a * b] *)
Definition mul (a b : num) : num :=
  match a, b with
  | NaN, _ | _, NaN => NaN
  | Int x, Int y => Int (x * y)
  | _, _ =>
      if is_zero a || is_zero b then NaN
      else signed_inf (xorb (negative a) (negative b))
  end.

(** [Math.ceil(a / b)].  The quotient of two integers is rounded up with
    [Z.div], which rounds down for divisors of either sign. *)
Definition ceil_div (a b : num) : num :=
  match a, b with
  | NaN, _ | _, NaN => NaN
  | Int x, Int 0 =>
      if bool_decide (x = 0) then NaN else signed_inf (bool_decide (x < 0))
  | Int x, Int y => Int (- ((- x) / y))
  | Int _, _ => Int 0
  | _, Int _ => signed_inf (xorb (negative a) (negative b))
  | _, _ => NaN
  end.

(** Truthiness of a number: [0] and [NaN] are falsy. *)
Definition truthy (a : num) : bool :=
  match a with
  | Int 0 | NaN => false
  | _ => true
  end.

(** [o || d] for an optional numeric field. *)
Definition or_default (o : option num) (d : num) : num :=
  match o with
  | Some a => if truthy a then a else d
  | None => d
  end.

End JS.

(** ** Values, items and nodes *)

(** The values an item field can hold. *)
Inductive jsval : Type :=
| VUndef
| VNull
| VBool (b : bool)
| VNum (z : Z)
| VStr (s : string).

#[global] Instance jsval_eq_dec : EqDecision jsval.
Proof. solve_decision. Defined.

(** Truthiness, as tested by [!key]. *)
Definition truthy (v : jsval) : bool :=
  match v with
  | VUndef | VNull => false
  | VBool b => b
  | VNum z => negb (bool_decide (z = 0))
  | VStr s => negb (bool_decide (s = ""%string))
  end.

(** ['' + v] *)
Definition to_string (v : jsval) : string :=
  match v with
  | VUndef => "undefined"
  | VNull => "null"
  | VBool b => if b then "true" else "false"
  | VNum z => pretty z
  | VStr s => s
  end.

(** An item of the data source is an object; reading a field that the object
    does not have gives [undefined]. *)
Abbreviation item := (gmap string jsval).

Definition get_field (it : item) (name : string) : jsval :=
  default VUndef (it !! name).

(** A React node, as far as this component looks at it: [null], or an element
    with its key and an opaque content.  Text nodes and arrays of nodes are
    not modelled. *)
Inductive node : Type :=
| NNull
| NElem (key : option string) (content : string).

#[global] Instance node_eq_dec : EqDecision node.
Proof. solve_decision. Defined.

(** Truthiness of a node, as tested by [!children], [header && ...]. *)
Definition present (n : node) : bool :=
  match n with
  | NNull => false
  | NElem _ _ => true
  end.

(** A location of the array heap. *)
Abbreviation loc := nat.

(** ** Props *)

Module Props.

(** The fields of [PaginationConfig] that the component reads.  A handler is
    an opaque caller function: the model records whether one was supplied,
    and each invocation is logged in the [world]. *)
Record PaginationConfig : Type := {
  current : option JS.num;
  pageSize : option JS.num;
  total : option JS.num;
  defaultCurrent : option JS.num;
  defaultPageSize : option JS.num;
  position : option string;
  onChange : bool;
  onShowSizeChange : bool;
}.

(** The empty configuration object [{}]. *)
Definition emptyPagination : PaginationConfig :=
  {| current := None; pageSize := None; total := None;
     defaultCurrent := None; defaultPageSize := None; position := None;
     onChange := false; onShowSizeChange := false |}.

Record ListGridType : Type := {
  gutter : option JS.num;
}.

(** [loading?: boolean | SpinProps] *)
Inductive loadingT : Type :=
| LBool (b : bool)
| LSpin (spinning : option bool).

Inductive rowKeyT : Type :=
| RowKeyFn (f : item -> string)
| RowKeyStr (name : string).

Record ListLocale : Type := {
  emptyText : node;
}.

Record ListProps : Type := {
  children : node;
  dataSource : option loc;
  grid : option ListGridType;
  loading : option loadingT;
  loadMore : node;
  pagination : option PaginationConfig;
  rowKey : option rowKeyT;
  renderItem : option (item -> nat -> node);
  header : node;
  footer : node;
  locale : option ListLocale;
}.

End Props.

(** ** The world: hook cells, array heap, handler log *)

Inductive eventName : Type :=
| EvChange
| EvShowSizeChange.

#[global] Instance eventName_eq_dec : EqDecision eventName.
Proof. solve_decision. Defined.

(** One invocation of a caller-supplied pagination handler, with the value
    of the two hook cells at the moment of the call: the values that the
    next render reads, as far as updates were issued before the call. *)
Record call : Type := {
  call_event : eventName;
  call_page : JS.num;
  call_pageSize : JS.num;
  call_seen : option JS.num * option JS.num;
}.

(** The cells of the two [React.useState] hooks ([None] before the first
    render), the arrays, and the log of handler invocations. *)
Record world : Type := {
  paginationCurrent : option JS.num;
  paginationSize : option JS.num;
  heap : list (list item);
  calls : list call;
}.

Definition set_current (c : option JS.num) (w : world) : world :=
  {| paginationCurrent := c; paginationSize := paginationSize w;
     heap := heap w; calls := calls w |}.

Definition set_size (s : option JS.num) (w : world) : world :=
  {| paginationCurrent := paginationCurrent w; paginationSize := s;
     heap := heap w; calls := calls w |}.

Definition set_heap (h : list (list item)) (w : world) : world :=
  {| paginationCurrent := paginationCurrent w;
     paginationSize := paginationSize w; heap := h; calls := calls w |}.

Definition add_call (c : call) (w : world) : world :=
  {| paginationCurrent := paginationCurrent w;
     paginationSize := paginationSize w; heap := heap w;
     calls := calls w ++ [c] |}.

(** What can go wrong: an exception of React, or a reference to an array
    that was never allocated (no JavaScript program has one; the case makes
    the heap operations total). *)
Inductive error : Type :=
| CloneElementOfNull
| Dangling.

Inductive result (A : Type) : Type :=
| Ok (a : A) (w : world)
| Throw (e : error) (w : world).
Arguments Ok {A} a w.
Arguments Throw {A} e w.

Definition M (A : Type) : Type := world -> result A.

#[global] Instance M_ret : MRet M := fun A a w => Ok a w.
#[global] Instance M_bind : MBind M := fun A B f m w =>
  match m w with
  | Ok a w' => f a w'
  | Throw e w' => Throw e w'
  end.

Definition throw {A} (e : error) : M A := fun w => Throw e w.

Definition final {A} (r : result A) : world :=
  match r with
  | Ok _ w => w
  | Throw _ w => w
  end.

(** ** Arrays *)

(** [Array.prototype.splice(start, deleteCount)]: the index where the removal
    starts.  A negative [start] counts from the end of the array. *)
Definition splice_start (len : nat) (start : JS.num) : nat :=
  match start with
  | JS.NaN | JS.NInf => 0%nat
  | JS.PInf => len
  | JS.Int s =>
      if bool_decide (s < 0) then Z.to_nat (Z.max (Z.of_nat len + s) 0)
      else Z.to_nat (Z.min s (Z.of_nat len))
  end.

(** The number of elements removed: [deleteCount] brought into
    [0 .. len - actualStart]. *)
Definition splice_count (len actualStart : nat) (deleteCount : JS.num) : nat :=
  match deleteCount with
  | JS.NaN | JS.NInf => 0%nat
  | JS.PInf => (len - actualStart)%nat
  | JS.Int d =>
      Z.to_nat (Z.min (Z.max d 0) (Z.of_nat (len - actualStart)))
  end.

(** The removed elements, which [splice] returns, and the elements that stay
    in the array it was called on. *)
Definition splice_removed {A} (l : list A) (start deleteCount : JS.num) : list A :=
  let s := splice_start (length l) start in
  take (splice_count (length l) s deleteCount) (drop s l).

Definition splice_kept {A} (l : list A) (start deleteCount : JS.num) : list A :=
  let s := splice_start (length l) start in
  take s l ++ drop (s + splice_count (length l) s deleteCount) l.

(** Heap operations. *)
Definition alloc (a : list item) : M loc := fun w =>
  Ok (length (heap w)) (set_heap (heap w ++ [a]) w).

Definition read (l : loc) : M (list item) := fun w =>
  match heap w !! l with
  | Some a => Ok a w
  | None => Throw Dangling w
  end.

Definition write (l : loc) (a : list item) : M unit := fun w =>
  match heap w !! l with
  | Some _ => Ok tt (set_heap (<[l := a]> (heap w)) w)
  | None => Throw Dangling w
  end.

(** [[...arr]]: a new array with the same elements. *)
Definition spread (l : loc) : M loc :=
  a ← read l; alloc a.

(** [arr.splice(start, deleteCount)]: removes from [arr] in place and returns
    a new array with the removed elements. *)
Definition splice (l : loc) (start deleteCount : JS.num) : M loc :=
  a ← read l;
  _ ← write l (splice_kept a start deleteCount);
  alloc (splice_removed a start deleteCount).

(** ** Hooks *)

(** [React.useState(init)] for each of the two cells: the first render
    creates the cell with the initial value, later renders read what is
    stored. *)
Definition useStateCurrent (init : JS.num) : M JS.num := fun w =>
  match paginationCurrent w with
  | Some c => Ok c w
  | None => Ok init (set_current (Some init) w)
  end.

Definition useStateSize (init : JS.num) : M JS.num := fun w =>
  match paginationSize w with
  | Some s => Ok s w
  | None => Ok init (set_size (Some init) w)
  end.

(** The setters.  React applies the update for the next render; the cell
    here holds the value that the next render reads. *)
Definition setPaginationCurrent (page : JS.num) : M unit := fun w =>
  Ok tt (set_current (Some page) w).

Definition setPaginationSize (size : JS.num) : M unit := fun w =>
  Ok tt (set_size (Some size) w).

(** Calling the caller's handler [pagination[eventName]]. *)
Definition invoke (ev : eventName) (page size : JS.num) : M unit := fun w =>
  Ok tt (add_call {| call_event := ev; call_page := page;
                     call_pageSize := size;
                     call_seen := (paginationCurrent w, paginationSize w) |} w).

Definition handler_of (ev : eventName) (p : Props.PaginationConfig) : bool :=
  match ev with
  | EvChange => Props.onChange p
  | EvShowSizeChange => Props.onShowSizeChange p
  end.

(** ** The component *)

(** [triggerPaginationEvent(eventName)(page, pageSize)] *)
Definition triggerPaginationEvent (pagination : option Props.PaginationConfig)
    (ev : eventName) (page size : JS.num) : M unit :=
  _ ← setPaginationCurrent page;
  _ ← setPaginationSize size;
  match pagination with
  | Some p => if handler_of ev p then invoke ev page size else mret tt
  | None => mret tt
  end.

Definition onPaginationChange (pagination : option Props.PaginationConfig) :=
  triggerPaginationEvent pagination EvChange.

Definition onPaginationShowSizeChange (pagination : option Props.PaginationConfig) :=
  triggerPaginationEvent pagination EvShowSizeChange.

(** The keys of [paginationProps] that the component computes or reads:
    [current], [total], [pageSize] and [position].  Every other key of
    [pagination], [defaultCurrent] and [defaultPageSize] included, is copied
    by the spread and reaches the pagination control as it was given; see
    [controlProps]. *)
Record PaginationProps : Type := {
  pp_current : JS.num;
  pp_total : JS.num;
  pp_pageSize : JS.num;
  pp_position : option string;
}.

Definition with_current (c : JS.num) (pp : PaginationProps) : PaginationProps :=
  {| pp_current := c; pp_total := pp_total pp;
     pp_pageSize := pp_pageSize pp; pp_position := pp_position pp |}.

(** [{...defaultPaginationProps, total: dataSource.length,
      current: paginationCurrent, pageSize: paginationSize,
      ...(pagination || {})}]: a key of [pagination] wins over the value
    before it. *)
Definition paginationProps (pagination : option Props.PaginationConfig)
    (len : nat) (cur size : JS.num) : PaginationProps :=
  let p := default Props.emptyPagination pagination in
  {| pp_current := default cur (Props.current p);
     pp_total := default (JS.Int (Z.of_nat len)) (Props.total p);
     pp_pageSize := default size (Props.pageSize p);
     pp_position := Props.position p |}.

Definition largestPage (pp : PaginationProps) : JS.num :=
  JS.ceil_div (pp_total pp) (pp_pageSize pp).

(** [if (paginationProps.current > largestPage)
       paginationProps.current = largestPage] *)
Definition clampCurrent (pp : PaginationProps) : PaginationProps :=
  if JS.gt (pp_current pp) (largestPage pp)
  then with_current (largestPage pp) pp
  else pp.

(** The index [(paginationProps.current - 1) * paginationProps.pageSize]. *)
Definition pageStart (pp : PaginationProps) : JS.num :=
  JS.mul (JS.pred (pp_current pp)) (pp_pageSize pp).

(** The array [splitDataSource]. *)
Definition splitDataSource (pagination : option Props.PaginationConfig)
    (pp : PaginationProps) (dataSource : loc) : M loc :=
  whole ← spread dataSource;
  match pagination with
  | Some _ =>
      a ← read dataSource;
      if JS.gt (JS.Int (Z.of_nat (length a))) (pageStart pp)
      then copy ← spread dataSource; splice copy (pageStart pp) (pp_pageSize pp)
      else mret whole
  | None => mret whole
  end.

(** The object [keys], from slice index to key. *)
Abbreviation keymap := (gmap nat jsval).

Definition key_at (keys : keymap) (index : nat) : jsval :=
  default VUndef (keys !! index).

(** The key that [renderItem] computes for an item. *)
Definition itemKey (rowKey : option Props.rowKeyT) (it : item) (index : nat) : jsval :=
  let key :=
    match rowKey with
    | Some (Props.RowKeyFn f) => VStr (f it)
    | Some (Props.RowKeyStr name) => get_field it name
    | None => get_field it "key"
    end in
  if truthy key then key else VStr ("list-item-" +:+ pretty index).

(** The inner function [renderItem(item, index)]; it writes [keys[index]]. *)
Definition renderItem (props : Props.ListProps) (it : item) (index : nat)
    (keys : keymap) : node * keymap :=
  match Props.renderItem props with
  | None => (NNull, keys)
  | Some render =>
      (render it index, <[index := itemKey (Props.rowKey props) it index]> keys)
  end.

(** [splitDataSource.map((item, index) => renderItem(item, index))] *)
Fixpoint mapItems (props : Props.ListProps) (l : list item) (index : nat)
    (keys : keymap) : list node * keymap :=
  match l with
  | [] => ([], keys)
  | it :: rest =>
      let '(n, keys1) := renderItem props it index keys in
      let '(ns, keys2) := mapItems props rest (S index) keys1 in
      (n :: ns, keys2)
  end.

(** [React.cloneElement(child, { key })] throws on [null]; a key that is not
    [undefined] replaces the key of the element, as a string. *)
Definition cloneElement (child : node) (key : jsval) : M node :=
  match child with
  | NNull => throw CloneElementOfNull
  | NElem k c =>
      mret (NElem (match key with VUndef => k | _ => Some (to_string key) end) c)
  end.

(** [React.Children.forEach(items, callback)] over an array of nodes: the
    callback is called for every child, [null] included, with its index. *)
Fixpoint forEach {A} (callback : node -> nat -> A -> M A) (items : list node)
    (index : nat) (acc : A) : M A :=
  match items with
  | [] => mret acc
  | child :: rest =>
      acc1 ← callback child index acc;
      forEach callback rest (S index) acc1
  end.

(** The props of the loading overlay. *)
Record SpinProps : Type := {
  sp_spinning : option bool;
}.

(** [typeof loadingProp === 'boolean'] turns the flag into [{ spinning }]. *)
Definition loadingProp (loading : option Props.loadingT) : option SpinProps :=
  match loading with
  | Some (Props.LBool b) => Some {| sp_spinning := Some b |}
  | Some (Props.LSpin s) => Some {| sp_spinning := s |}
  | None => None
  end.

(** Truthiness of [loadingProp && loadingProp.spinning]. *)
Definition isLoading (loading : option Props.loadingT) : bool :=
  match loadingProp loading with
  | Some sp => default false (sp_spinning sp)
  | None => false
  end.

(** What [childrenContent] can be. *)
Inductive body : Type :=
| BNothing
| BPlaceholder
| BGrid (gutter : option JS.num) (childrenList : list node)
| BItems (childrenList : list node)
| BEmpty (text : node).

(** [renderEmptyFunc]: [(locale && locale.emptyText) || renderEmptyHandler('List')] *)
Definition renderEmptyFunc (props : Props.ListProps)
    (renderEmptyHandler : string -> node) : body :=
  match Props.locale props with
  | Some l =>
      if present (Props.emptyText l) then BEmpty (Props.emptyText l)
      else BEmpty (renderEmptyHandler "List")
  | None => BEmpty (renderEmptyHandler "List")
  end.

(** The callback of [React.Children.forEach]: push the clone that carries
    [keys[index]]. *)
Definition pushClone (keys : keymap) (child : node) (index : nat)
    (childrenList : list node) : M (list node) :=
  c ← cloneElement child (key_at keys index);
  mret (childrenList ++ [c]).

(** The body: [isLoading && <div style={{ minHeight: 53 }} />], replaced by
    the items when the slice has any, and by the empty text when there are
    neither items nor children and the list is not loading. *)
Definition childrenContent (props : Props.ListProps)
    (renderEmpty : string -> node) (split : list item) : M body :=
  let loading := isLoading (Props.loading props) in
  let content := if loading then BPlaceholder else BNothing in
  if bool_decide (0 < length split)%nat then
    let '(items, keys) := mapItems props split 0 ∅ in
    childrenList ← forEach (pushClone keys) items 0%nat [];
    mret (match Props.grid props with
          | Some g => BGrid (Props.gutter g) childrenList
          | None => BItems childrenList
          end)
  else if negb (present (Props.children props)) && negb loading then
    mret (renderEmptyFunc props renderEmpty)
  else mret content.

(** What follows the footer: [loadMore || (... && paginationContent)]. *)
Inductive tail : Type :=
| TailLoadMore (n : node)
| TailPagination (pp : PaginationProps)
| TailNone.

(** The tree that the component returns. *)
Record view : Type := {
  v_top : option PaginationProps;
  v_header : node;
  v_spin : option SpinProps;
  v_content : body;
  v_children : node;
  v_footer : node;
  v_tail : tail;
}.

Definition position_is (pp : PaginationProps) (names : list string) : bool :=
  let paginationPosition :=
    match pp_position pp with
    | Some s => if bool_decide (s = ""%string) then "bottom"%string else s
    | None => "bottom"%string
    end in
  bool_decide (paginationPosition ∈ names).

(** The function component [List]. *)
Definition List (props : Props.ListProps) (renderEmpty : string -> node) : M view :=
  let pagination := Props.pagination props in
  let paginationObj := default Props.emptyPagination pagination in
  cur ← useStateCurrent (JS.or_default (Props.defaultCurrent paginationObj) (JS.Int 1));
  size ← useStateSize (JS.or_default (Props.defaultPageSize paginationObj) (JS.Int 10));
  dataSource ← match Props.dataSource props with
               | Some l => mret l
               | None => alloc []
               end;
  a ← read dataSource;
  let pp := clampCurrent (paginationProps pagination (length a) cur size) in
  let paginationContent :=
    match pagination with Some _ => Some pp | None => None end in
  split ← splitDataSource pagination pp dataSource;
  slice ← read split;
  content ← childrenContent props renderEmpty slice;
  mret {| v_top := if position_is pp ["top"; "both"]%string
                   then paginationContent else None;
          v_header := Props.header props;
          v_spin := loadingProp (Props.loading props);
          v_content := content;
          v_children := Props.children props;
          v_footer := Props.footer props;
          v_tail := if present (Props.loadMore props)
                    then TailLoadMore (Props.loadMore props)
                    else if position_is pp ["bottom"; "both"]%string
                         then from_option TailPagination TailNone paginationContent
                         else TailNone |}.

(** ** The configuration provider *)

Inductive directionT : Type :=
| Ltr
| Rtl.

#[global] Instance directionT_eq_dec : EqDecision directionT.
Proof. solve_decision. Defined.

(** [ValidateMessages]: an object from message names to templates. *)
Abbreviation ValidateMessages := (gmap string string).

Module Locale.

Record FormLocale : Type := {
  defaultValidateMessages : option ValidateMessages;
}.

(** A locale: its name and, of its component sections, the one for forms. *)
Record Locale : Type := {
  locale : string;
  Form : option FormLocale;
}.

End Locale.

(** [ConfigConsumerProps], the value of the configuration context.  The
    fields that the provider only copies hold opaque values. *)
Module Context.

Record ConfigConsumerProps : Type := {
  getPrefixCls : string -> option string -> string;
  getPopupContainer : option string;
  renderEmpty : option (string -> node);
  csp : option string;
  autoInsertSpaceInButton : option bool;
  locale : option Locale.Locale;
  pageHeader : option bool;
  direction : option directionT;
  space : option string;
}.

End Context.

(** [ConfigProviderProps], without [children], which the functions below
    take as an argument of their own. *)
Module ProviderProps.

Record FormConfig : Type := {
  validateMessages : option ValidateMessages;
}.

Record ConfigProviderProps : Type := {
  getPopupContainer : option string;
  prefixCls : option string;
  renderEmpty : option (string -> node);
  csp : option string;
  autoInsertSpaceInButton : option bool;
  form : option FormConfig;
  locale : option Locale.Locale;
  pageHeader : option bool;
  componentSize : option string;
  direction : option directionT;
  space : option string;
}.

End ProviderProps.

Module ConfigProvider.

Import Context.

Definition nonempty (s : string) : bool := negb (bool_decide (s = ""%string)).

(** A string prop that is truthy: present and not empty. *)
Definition given (o : option string) : option string :=
  match o with
  | Some s => if nonempty s then Some s else None
  | None => None
  end.

(** [getPrefixClsWrapper(context)(suffixCls, customizePrefixCls)] *)
Definition getPrefixClsWrapper (props : ProviderProps.ConfigProviderProps)
    (context : ConfigConsumerProps) (suffixCls : string)
    (customizePrefixCls : option string) : string :=
  match given customizePrefixCls with
  | Some c => c
  | None =>
      let mergedPrefixCls :=
        match given (ProviderProps.prefixCls props) with
        | Some p => p
        | None => getPrefixCls context "" None
        end in
      if nonempty suffixCls then mergedPrefixCls +:+ "-" +:+ suffixCls
      else mergedPrefixCls
  end.

(** [a || b] on optional values whose present values are all truthy. *)
Definition or_else {A} (a b : option A) : option A :=
  match a with
  | Some _ => a
  | None => b
  end.

(** The object [config]. *)
Definition config (props : ProviderProps.ConfigProviderProps)
    (context : ConfigConsumerProps) (legacyLocale : option Locale.Locale)
    : ConfigConsumerProps :=
  {| getPrefixCls := getPrefixClsWrapper props context;
     csp := ProviderProps.csp props;
     autoInsertSpaceInButton := ProviderProps.autoInsertSpaceInButton props;
     locale := or_else (ProviderProps.locale props) legacyLocale;
     direction := ProviderProps.direction props;
     space := ProviderProps.space props;
     getPopupContainer :=
       or_else (ProviderProps.getPopupContainer props) (getPopupContainer context);
     renderEmpty := or_else (ProviderProps.renderEmpty props) (renderEmpty context);
     pageHeader := or_else (ProviderProps.pageHeader props) (pageHeader context) |}.

(** The object [validateMessages] at the end of [renderProvider]:
    [{}], replaced by [locale.Form.defaultValidateMessages] of the [locale]
    prop, then [{ ...validateMessages, ...form.validateMessages }]. *)
Definition validateMessages (props : ProviderProps.ConfigProviderProps)
    : ValidateMessages :=
  let fromLocale : ValidateMessages :=
    match ProviderProps.locale props with
    | Some l =>
        match Locale.Form l with
        | Some f => default ∅ (Locale.defaultValidateMessages f)
        | None => ∅
        end
    | None => ∅
    end in
  match ProviderProps.form props with
  | Some f =>
      match ProviderProps.validateMessages f with
      | Some local => local ∪ fromLocale
      | None => fromLocale
      end
  | None => fromLocale
  end.

(** [childNode]: the children, inside a form provider or as they are. *)
Inductive childNode (C : Type) : Type :=
| RcFormProvider (messages : ValidateMessages) (children : C)
| Unwrapped (children : C).
Arguments RcFormProvider {C} messages children.
Arguments Unwrapped {C} children.

(** The tree that [renderProvider] returns: the size provider, the
    configuration provider, the locale provider, and the child node. *)
Record provided (C : Type) : Type := {
  sizeContext : option string;
  value : ConfigConsumerProps;
  localeProvider : option Locale.Locale;
  child : childNode C;
}.
Arguments sizeContext {C} p.
Arguments value {C} p.
Arguments localeProvider {C} p.
Arguments child {C} p.

(** [renderProvider(context, legacyLocale)] *)
Definition renderProvider {C} (props : ProviderProps.ConfigProviderProps)
    (children : C) (context : ConfigConsumerProps)
    (legacyLocale : option Locale.Locale) : provided C :=
  let messages := validateMessages props in
  {| sizeContext := ProviderProps.componentSize props;
     value := config props context legacyLocale;
     localeProvider := or_else (ProviderProps.locale props) legacyLocale;
     child := if bool_decide (0 < size messages)%nat
              then RcFormProvider messages children
              else Unwrapped children |}.

End ConfigProvider.

(** ** Trees of providers and consumers *)

#[local] Set Warnings "-register-all".

(** A subtree of components: a descendant that reads the configuration
    context, or a nested provider with its children. *)
Inductive tree : Type :=
| Consumer (name : string)
| Provider (props : ProviderProps.ConfigProviderProps) (children : list tree).

(** Modelled from the spec: the locale receiver and the locale provider are
    not among the sources.  A provider renders its children under the
    configuration value that [renderProvider] publishes; the legacy locale
    that the receiver of a nested provider supplies is taken to be the locale
    given to the enclosing locale provider.  Every consumer is listed with
    the context value of its nearest enclosing provider. *)
Fixpoint observe (context : Context.ConfigConsumerProps)
    (legacyLocale : option Locale.Locale) (t : tree)
    : list (string * Context.ConfigConsumerProps) :=
  match t with
  | Consumer name => [(name, context)]
  | Provider props children =>
      let r := ConfigProvider.renderProvider props children context legacyLocale in
      flat_map (observe (ConfigProvider.value r) (ConfigProvider.localeProvider r))
               children
  end.

(** The direction that each consumer of a tree observes. *)
Definition directions (context : Context.ConfigConsumerProps)
    (legacyLocale : option Locale.Locale) (t : tree)
    : list (string * option directionT) :=
  (fun o => (o.1, Context.direction o.2)) <$> observe context legacyLocale t.

(** ** Notions for the statements, and concrete inputs *)

(** The contents of the array [splitDataSource]. *)
Definition slice_of (pagination : option Props.PaginationConfig)
    (pp : PaginationProps) (ds : list item) : list item :=
  match pagination with
  | Some _ =>
      if JS.gt (JS.Int (Z.of_nat (length ds))) (pageStart pp)
      then splice_removed ds (pageStart pp) (pp_pageSize pp)
      else ds
  | None => ds
  end.

(** The clone of an element under a key. *)
Definition keyed (key : jsval) (k0 : option string) : option string :=
  match key with
  | VUndef => k0
  | _ => Some (to_string key)
  end.

(** The initial values of the two hook cells. *)
Definition seedCurrent (props : Props.ListProps) : JS.num :=
  JS.or_default
    (Props.defaultCurrent (default Props.emptyPagination (Props.pagination props)))
    (JS.Int 1).

Definition seedSize (props : Props.ListProps) : JS.num :=
  JS.or_default
    (Props.defaultPageSize (default Props.emptyPagination (Props.pagination props)))
    (JS.Int 10).

(** The values that a render reads from the cells. *)
Definition shadowCurrent (props : Props.ListProps) (w : world) : JS.num :=
  default (seedCurrent props) (paginationCurrent w).

Definition shadowSize (props : Props.ListProps) (w : world) : JS.num :=
  default (seedSize props) (paginationSize w).

(** The array that the [dataSource] prop refers to. *)
Definition source (props : Props.ListProps) (w : world) : option (list item) :=
  match Props.dataSource props with
  | Some l => heap w !! l
  | None => Some []
  end.

(** The pagination props of a render, after the clamp. *)
Definition effectiveProps (props : Props.ListProps) (w : world) (ds : list item)
    : PaginationProps :=
  clampCurrent (paginationProps (Props.pagination props) (length ds)
                  (shadowCurrent props w) (shadowSize props w)).

(** The tree around a body. *)
Definition view_of (props : Props.ListProps) (pp : PaginationProps)
    (content : body) : view :=
  let paginationContent :=
    match Props.pagination props with Some _ => Some pp | None => None end in
  {| v_top := if position_is pp ["top"; "both"]%string
              then paginationContent else None;
     v_header := Props.header props;
     v_spin := loadingProp (Props.loading props);
     v_content := content;
     v_children := Props.children props;
     v_footer := Props.footer props;
     v_tail := if present (Props.loadMore props)
               then TailLoadMore (Props.loadMore props)
               else if position_is pp ["bottom"; "both"]%string
                    then from_option TailPagination TailNone paginationContent
                    else TailNone |}.

(** The world after a render: the cells hold what the render read, and the
    heap has some more arrays. *)
Definition rendered (props : Props.ListProps) (w : world)
    (extra : list (list item)) : world :=
  {| paginationCurrent := Some (shadowCurrent props w);
     paginationSize := Some (shadowSize props w);
     heap := heap w ++ extra;
     calls := calls w |}.

(** The item [{ key: k }]. *)
Definition entry (k : string) : item := {[ "key"%string := VStr k ]}.

(** A [renderItem] prop: an element that shows the [key] field. *)
Definition label (it : item) (index : nat) : node :=
  NElem None (to_string (get_field it "key")).

(** A [renderEmpty] of the context. *)
Definition emptyNode (componentName : string) : node :=
  NElem None ("No data: " +:+ componentName).

(** Props with the data source in the first array of the heap. *)
Definition propsOf (pagination : option Props.PaginationConfig)
    (render : option (item -> nat -> node)) (loading : option Props.loadingT)
    : Props.ListProps :=
  {| Props.children := NNull; Props.dataSource := Some 0%nat;
     Props.grid := None; Props.loading := loading; Props.loadMore := NNull;
     Props.pagination := pagination; Props.rowKey := None;
     Props.renderItem := render; Props.header := NNull;
     Props.footer := NNull; Props.locale := None |}.

(** The pagination configuration [{ current, pageSize }]. *)
Definition paging (current pageSize : option JS.num) : Props.PaginationConfig :=
  {| Props.current := current; Props.pageSize := pageSize;
     Props.total := None; Props.defaultCurrent := None;
     Props.defaultPageSize := None; Props.position := None;
     Props.onChange := false; Props.onShowSizeChange := false |}.

(** The world before the first render, with one array. *)
Definition unmounted (ds : list item) : world :=
  {| paginationCurrent := None; paginationSize := None;
     heap := [ds]; calls := [] |}.

(** The window that the specification describes for the page [c] of size
    [p]: when [(c - 1) * p] is below the length [n], the [min(p, n - (c - 1) * p)]
    elements from the index [(c - 1) * p] on; otherwise the whole array. *)
Definition window_as_specified (ds slice : list item) (p c : Z) : Prop :=
  let n := Z.of_nat (length ds) in
  if bool_decide ((c - 1) * p < n)
  then slice = take (Z.to_nat (Z.min p (n - (c - 1) * p)))
                    (drop (Z.to_nat ((c - 1) * p)) ds)
       /\ Z.of_nat (length slice) = Z.min p (n - (c - 1) * p)
  else slice = ds.

(** The props with another [loading]. *)
Definition with_loading (loading : option Props.loadingT)
    (props : Props.ListProps) : Props.ListProps :=
  {| Props.children := Props.children props;
     Props.dataSource := Props.dataSource props;
     Props.grid := Props.grid props;
     Props.loading := loading;
     Props.loadMore := Props.loadMore props;
     Props.pagination := Props.pagination props;
     Props.rowKey := Props.rowKey props;
     Props.renderItem := Props.renderItem props;
     Props.header := Props.header props;
     Props.footer := Props.footer props;
     Props.locale := Props.locale props |}.

(** The outcome of a computation, moved to another world. *)
Definition in_world {A} (w : world) (r : result A) : result A :=
  match r with
  | Ok a _ => Ok a w
  | Throw e _ => Throw e w
  end.

(** Provider props with a direction, a locale and form messages, and
    nothing else. *)
Definition providerProps (direction : option directionT)
    (locale : option Locale.Locale) (form : option ProviderProps.FormConfig)
    : ProviderProps.ConfigProviderProps :=
  {| ProviderProps.getPopupContainer := None;
     ProviderProps.prefixCls := None;
     ProviderProps.renderEmpty := None;
     ProviderProps.csp := None;
     ProviderProps.autoInsertSpaceInButton := None;
     ProviderProps.form := form;
     ProviderProps.locale := locale;
     ProviderProps.pageHeader := None;
     ProviderProps.componentSize := None;
     ProviderProps.direction := direction;
     ProviderProps.space := None |}.

(** A context value for the root of a tree. *)
Definition rootContext : Context.ConfigConsumerProps :=
  {| Context.getPrefixCls := fun suffixCls customizePrefixCls =>
       match ConfigProvider.given customizePrefixCls with
       | Some c => c
       | None => "ant-" +:+ suffixCls
       end;
     Context.getPopupContainer := None;
     Context.renderEmpty := Some emptyNode;
     Context.csp := None;
     Context.autoInsertSpaceInButton := None;
     Context.locale := None;
     Context.pageHeader := None;
     Context.direction := None;
     Context.space := None |}.

(** The default validation messages that a locale carries, and the messages
    of a [form] prop; an absent object carries none. *)
Definition localeMessages (l : option Locale.Locale) : ValidateMessages :=
  match l with
  | Some l =>
      match Locale.Form l with
      | Some f => default ∅ (Locale.defaultValidateMessages f)
      | None => ∅
      end
  | None => ∅
  end.

Definition formMessages (f : option ProviderProps.FormConfig) : ValidateMessages :=
  match f with
  | Some f => default ∅ (ProviderProps.validateMessages f)
  | None => ∅
  end.

(** The props with a [rowKey]. *)
Definition with_rowKey (rowKey : option Props.rowKeyT)
    (props : Props.ListProps) : Props.ListProps :=
  {| Props.children := Props.children props;
     Props.dataSource := Props.dataSource props;
     Props.grid := Props.grid props;
     Props.loading := Props.loading props;
     Props.loadMore := Props.loadMore props;
     Props.pagination := Props.pagination props;
     Props.rowKey := rowKey;
     Props.renderItem := Props.renderItem props;
     Props.header := Props.header props;
     Props.footer := Props.footer props;
     Props.locale := Props.locale props |}.

(** The body of a successful render, if it is a plain list. *)
Definition rendered_items (r : result view) : option (list node) :=
  match r with
  | Ok v _ =>
      match v_content v with
      | BItems cl => Some cl
      | _ => None
      end
  | Throw _ _ => None
  end.

(** The direction that each consumer should observe when it is the
    [direction] prop of the nearest enclosing provider, and the direction
    [d] of the surrounding context outside every provider. *)
Fixpoint nearest (d : option directionT) (t : tree)
    : list (string * option directionT) :=
  match t with
  | Consumer name => [(name, d)]
  | Provider props children =>
      flat_map (nearest (ProviderProps.direction props)) children
  end.

(** The tree of a render that succeeds. *)
Definition view_of_result (r : result view) : option view :=
  match r with
  | Ok v _ => Some v
  | Throw _ _ => None
  end.

(** The nodes of a body that shows items. *)
Definition body_items (b : body) : option (list node) :=
  match b with
  | BGrid _ cl | BItems cl => Some cl
  | _ => None
  end.

(** The array that [splitDataSource] returns for a data source that is the
    only array of the heap. *)
Definition pageSlice (pagination : option Props.PaginationConfig)
    (pp : PaginationProps) (ds : list item) : option (list item) :=
  match splitDataSource pagination pp 0%nat (unmounted ds) with
  | Ok l w => heap w !! l
  | Throw _ _ => None
  end.

(** The page numbers [1 .. k]. *)
Definition pages (k : nat) : list Z := (fun i => Z.of_nat (S i)) <$> seq 0 k.

(** The pagination props of the page [c] of size [p] over [n] items, before
    the clamp. *)
Definition pageProps (n : nat) (p c : Z) : PaginationProps :=
  {| pp_current := JS.Int c; pp_total := JS.Int (Z.of_nat n);
     pp_pageSize := JS.Int p; pp_position := None |}.

(** The props of the pagination control that a tree shows, at the top or
    after the footer. *)
Definition shown_control (v : view) : option PaginationProps :=
  match v_top v with
  | Some pp => Some pp
  | None =>
      match v_tail v with
      | TailPagination pp => Some pp
      | _ => None
      end
  end.

(** The props with another [pagination]. *)
Definition with_pagination (pagination : option Props.PaginationConfig)
    (props : Props.ListProps) : Props.ListProps :=
  {| Props.children := Props.children props;
     Props.dataSource := Props.dataSource props;
     Props.grid := Props.grid props;
     Props.loading := Props.loading props;
     Props.loadMore := Props.loadMore props;
     Props.pagination := pagination;
     Props.rowKey := Props.rowKey props;
     Props.renderItem := Props.renderItem props;
     Props.header := Props.header props;
     Props.footer := Props.footer props;
     Props.locale := Props.locale props |}.

(** The pagination configuration with other [defaultCurrent] and
    [defaultPageSize]. *)
Definition with_defaults (defaultCurrent defaultPageSize : option JS.num)
    (pg : Props.PaginationConfig) : Props.PaginationConfig :=
  {| Props.current := Props.current pg;
     Props.pageSize := Props.pageSize pg;
     Props.total := Props.total pg;
     Props.defaultCurrent := defaultCurrent;
     Props.defaultPageSize := defaultPageSize;
     Props.position := Props.position pg;
     Props.onChange := Props.onChange pg;
     Props.onShowSizeChange := Props.onShowSizeChange pg |}.

(** The key and the content of a node. *)
Definition node_key (n : node) : option string :=
  match n with
  | NElem k _ => k
  | NNull => None
  end.

Definition node_content (n : node) : option string :=
  match n with
  | NElem _ c => Some c
  | NNull => None
  end.

(** The world after a change event of the pagination control. *)
Definition after_event (pagination : option Props.PaginationConfig)
    (ev : eventName) (page size : JS.num) (w : world) : world :=
  {| paginationCurrent := Some page;
     paginationSize := Some size;
     heap := heap w;
     calls := calls w ++
       (if match pagination with
           | Some p => handler_of ev p
           | None => false
           end
        then [{| call_event := ev; call_page := page; call_pageSize := size;
                 call_seen := (Some page, Some size) |}]
        else []) |}.

(** [paginationProps.position || 'bottom'] for a pagination configuration. *)
Definition positionOf (pg : Props.PaginationConfig) : string :=
  match Props.position pg with
  | Some s => if bool_decide (s = ""%string) then "bottom"%string else s
  | None => "bottom"%string
  end.

(** The providers of [chain], the outermost first, each the only child of
    the one before, around a tree. *)
Fixpoint wrap (chain : list ProviderProps.ConfigProviderProps) (t : tree) : tree :=
  match chain with
  | [] => t
  | props :: rest => Provider props [wrap rest t]
  end.

(** The prefix that a chain of providers resolves to: the [prefixCls] of
    the innermost provider that gives one, and [bare] when none does. *)
Definition resolvedPrefix (bare : string)
    (chain : list ProviderProps.ConfigProviderProps) : string :=
  fold_left (fun acc props =>
               default acc (ConfigProvider.given (ProviderProps.prefixCls props)))
            chain bare.

(** The value of the innermost provider of a chain that gives one, and [d]
    when none does. *)
Definition innermost {A} (get : ProviderProps.ConfigProviderProps -> option A)
    (d : option A) (chain : list ProviderProps.ConfigProviderProps) : option A :=
  fold_left (fun acc props => ConfigProvider.or_else (get props) acc) chain d.

(** ** The class string of the list *)

(** The props of the list that only the class string reads. *)
Module Style.

Record StyleProps : Type := {
  prefixCls : option string;
  className : option string;
  bordered : option bool;
  split : option bool;
  size : option string;
  itemLayout : option string;
}.

End Style.

(** [isSomethingAfterLastItem()]: [!!(loadMore || pagination || footer)] *)
Definition isSomethingAfterLastItem (props : Props.ListProps) : bool :=
  present (Props.loadMore props)
  || bool_decide (is_Some (Props.pagination props))
  || present (Props.footer props).

(** The [switch] on [size]: [large => lg], [small => sm]. *)
Definition sizeCls (size : option string) : string :=
  match size with
  | Some s =>
      if bool_decide (s = "large"%string) then "lg"%string
      else if bool_decide (s = "small"%string) then "sm"%string
      else ""%string
  | None => ""%string
  end.

(** [classNames(...)]: the string arguments that are not empty and the keys
    whose value is truthy, in the order of the arguments.  An entry is a
    name with the truth of its value; for a string argument that is whether
    the string is not empty. *)
Definition classNames (entries : list (string * bool)) : list string :=
  fst <$> filter (fun e => e.2 = true) entries.

Definition stringArg (s : string) : string * bool :=
  (s, ConfigProvider.nonempty s).

(** The names that [classNames] collects for [classString], in order; the
    string itself joins them with spaces.  A name is an argument or a key as
    it was given: the class name of the caller is one name, also when it
    holds several classes.  The classes of the string are its [tokens]. *)
Definition classList (context : Context.ConfigConsumerProps)
    (style : Style.StyleProps) (props : Props.ListProps) : list string :=
  let prefixCls := Context.getPrefixCls context "list" (Style.prefixCls style) in
  classNames
    [ stringArg prefixCls;
      stringArg (default ""%string (Style.className style));
      (prefixCls +:+ "-vertical",
       bool_decide (Style.itemLayout style = Some "vertical"%string));
      (prefixCls +:+ "-" +:+ sizeCls (Style.size style),
       ConfigProvider.nonempty (sizeCls (Style.size style)));
      (prefixCls +:+ "-split", default false (Style.split style));
      (prefixCls +:+ "-bordered", default false (Style.bordered style));
      (prefixCls +:+ "-loading", isLoading (Props.loading props));
      (prefixCls +:+ "-grid", bool_decide (is_Some (Props.grid props)));
      (prefixCls +:+ "-something-after-last-item", isSomethingAfterLastItem props);
      (prefixCls +:+ "-rtl", bool_decide (Context.direction context = Some Rtl)) ].

Definition classString (context : Context.ConfigConsumerProps)
    (style : Style.StyleProps) (props : Props.ListProps) : string :=
  String.concat " " (classList context style props).

(** Style props with nothing set. *)
Definition plainStyle : Style.StyleProps :=
  {| Style.prefixCls := None; Style.className := None;
     Style.bordered := None; Style.split := None;
     Style.size := None; Style.itemLayout := None |}.



(** The characters that separate the classes of a class string: tab, line
    feed, form feed, carriage return and space. *)
Definition is_space (c : Ascii.ascii) : bool :=
  bool_decide (Ascii.nat_of_ascii c ∈ [9; 10; 12; 13; 32]%nat).

(** The classes of a class string: its maximal runs of characters that are
    not spaces.  [cur] is the class read so far. *)
Fixpoint tokens_from (cur : string) (s : string) : list string :=
  match s with
  | EmptyString => if ConfigProvider.nonempty cur then [cur] else []
  | String c rest =>
      if is_space c
      then (if ConfigProvider.nonempty cur then [cur] else [])
           ++ tokens_from "" rest
      else tokens_from (cur +:+ String c "") rest
  end.

Definition tokens (s : string) : list string := tokens_from "" s.

(** A string without a space. *)
Fixpoint spaceless (s : string) : bool :=
  match s with
  | EmptyString => true
  | String c rest => negb (is_space c) && spaceless rest
  end.

(** [<Pagination {...paginationProps} onChange=... onShowSizeChange=... />]:
    the control is handed every key of [paginationProps].  Beside the four
    keys that the component computes or reads, these are the other keys of
    [pagination], which the spread [...(pagination || {})] copies as they
    are; of those, the two initial values are kept here. *)
Record ControlProps : Type := {
  cp_computed : PaginationProps;
  cp_defaultCurrent : option JS.num;
  cp_defaultPageSize : option JS.num;
}.

Definition controlProps (pagination : option Props.PaginationConfig)
    (pp : PaginationProps) : ControlProps :=
  let p := default Props.emptyPagination pagination in
  {| cp_computed := pp;
     cp_defaultCurrent := Props.defaultCurrent p;
     cp_defaultPageSize := Props.defaultPageSize p |}.

(** What the pagination control of a tree is handed, where the tree shows
    the control. *)
Definition control_of (props : Props.ListProps) (v : view) : option ControlProps :=
  controlProps (Props.pagination props) <$> shown_control v.

(** * Properties *)

(** ** Running the monad *)

Lemma bind_Ok {A B} (m : M A) (f : A -> M B) (w w1 : world) (a : A) :
  m w = Ok a w1 -> (m ≫= f) w = f a w1.
Proof. intros H. unfold mbind, M_bind. now rewrite H. Qed.

Lemma bind_Throw {A B} (m : M A) (f : A -> M B) (w w1 : world) (e : error) :
  m w = Throw e w1 -> (m ≫= f) w = Throw e w1.
Proof. intros H. unfold mbind, M_bind. now rewrite H. Qed.

Lemma read_Ok (l : loc) (a : list item) (w : world) :
  heap w !! l = Some a -> read l w = Ok a w.
Proof. intros H. unfold read. now rewrite H. Qed.

Lemma set_heap_twice (h1 h2 : list (list item)) (w : world) :
  set_heap h2 (set_heap h1 w) = set_heap h2 w.
Proof. reflexivity. Qed.

Lemma spread_Ok (l : loc) (a : list item) (w : world) :
  heap w !! l = Some a ->
  spread l w = Ok (length (heap w)) (set_heap (heap w ++ [a]) w).
Proof.
  intros H. unfold spread. now rewrite (bind_Ok _ _ _ _ _ (read_Ok _ _ _ H)).
Qed.

(** [splice] on the last array of the heap: the array keeps what was not
    removed, and the removed elements are in a new array after it. *)
Lemma splice_last (a : list item) (start count : JS.num) (w : world) :
  splice (length (heap w)) start count (set_heap (heap w ++ [a]) w)
  = Ok (S (length (heap w)))
       (set_heap (heap w ++ [splice_kept a start count;
                             splice_removed a start count]) w).
Proof.
  unfold splice.
  assert (Hl : (heap w ++ [a]) !! length (heap w) = Some a).
  { rewrite lookup_app_r by lia. now rewrite Nat.sub_diag. }
  rewrite (bind_Ok _ _ _ _ _ (read_Ok _ _ (set_heap _ w) Hl)).
  unfold mbind, M_bind, write, alloc. simpl. rewrite Hl. simpl.
  rewrite length_insert, length_app. simpl.
  replace (length (heap w) + 1)%nat with (S (length (heap w))) by lia.
  rewrite insert_app_r_alt by lia. rewrite Nat.sub_diag. simpl.
  now rewrite <- app_assoc.
Qed.

(** [splitDataSource] returns a new array that holds [slice_of]; it only
    adds arrays to the heap. *)
Lemma splitDataSource_run pagination pp (l : loc) (ds : list item) (w : world) :
  heap w !! l = Some ds ->
  exists (l' : loc) (extra : list (list item)),
    splitDataSource pagination pp l w = Ok l' (set_heap (heap w ++ extra) w)
    /\ (heap w ++ extra) !! l' = Some (slice_of pagination pp ds).
Proof.
  intros H. unfold splitDataSource, slice_of.
  rewrite (bind_Ok _ _ _ _ _ (spread_Ok _ _ _ H)).
  assert (H1 : heap (set_heap (heap w ++ [ds]) w) !! l = Some ds).
  { simpl. rewrite lookup_app_l; [done|]. now apply lookup_lt_Some in H. }
  assert (Hwhole : (heap w ++ [ds]) !! length (heap w) = Some ds).
  { rewrite lookup_app_r by lia. now rewrite Nat.sub_diag. }
  destruct pagination as [pg|].
  - rewrite (bind_Ok _ _ _ _ _ (read_Ok _ _ _ H1)).
    destruct (JS.gt _ _).
    + rewrite (bind_Ok _ _ _ _ _ (spread_Ok _ _ _ H1)). simpl.
      rewrite length_app. simpl.
      replace (length (heap w) + 1)%nat
        with (length (heap (set_heap (heap w ++ [ds]) w)))
        by (simpl; rewrite length_app; simpl; lia).
      rewrite <- (set_heap_twice (heap w ++ [ds]) _ w).
      rewrite (splice_last ds _ _ (set_heap (heap w ++ [ds]) w)). simpl.
      eexists _, [ds; _; _]. split.
      * f_equal. now rewrite <- app_assoc.
      * rewrite length_app. simpl.
        rewrite lookup_app_r by lia.
        replace (S (length (heap w) + 1) - length (heap w))%nat with 2%nat by lia.
        reflexivity.
    + exists (length (heap w)), [ds]. split; [reflexivity | exact Hwhole].
  - exists (length (heap w)), [ds]. split; [reflexivity | exact Hwhole].
Qed.

(** ** Items, keys and clones *)

(** Without a [renderItem] prop every item gives [null] and no key is
    written. *)
Lemma mapItems_missing props (l : list item) (i : nat) (keys : keymap) :
  Props.renderItem props = None ->
  mapItems props l i keys = (replicate (length l) NNull, keys).
Proof.
  intros H. revert i. induction l as [|it l IH]; intros i; simpl; [done|].
  unfold renderItem at 1. rewrite H, IH. reflexivity.
Qed.

(** [mapItems] leaves the keys below its first index alone. *)
Lemma mapItems_keys_below props (l : list item) (i k : nat) (keys : keymap) :
  (k < i)%nat -> (mapItems props l i keys).2 !! k = keys !! k.
Proof.
  revert i keys. induction l as [|it l IH]; intros i keys Hk; simpl; [done|].
  destruct (renderItem props it i keys) as [n keys1] eqn:E.
  specialize (IH (S i) keys1 ltac:(lia)).
  destruct (mapItems props l (S i) keys1) as [ns keys2]. simpl in *.
  rewrite IH. unfold renderItem in E.
  destruct (Props.renderItem props); inversion E; subst; [|done].
  apply lookup_insert_ne. lia.
Qed.

(** With a [renderItem] prop, the node of the item at slice position [j] is
    what the prop returns for it, and [keys] maps its index to [itemKey]. *)
Lemma mapItems_render props render (l : list item) (i : nat) (keys : keymap) :
  Props.renderItem props = Some render ->
  length (mapItems props l i keys).1 = length l
  /\ forall j it, l !! j = Some it ->
       (mapItems props l i keys).1 !! j = Some (render it (i + j)%nat)
       /\ (mapItems props l i keys).2 !! (i + j)%nat
          = Some (itemKey (Props.rowKey props) it (i + j)).
Proof.
  intros H. revert i keys. induction l as [|it l IH]; intros i keys.
  { split; [done|]. intros j x Hj. now rewrite lookup_nil in Hj. }
  simpl.
  pose proof (mapItems_keys_below props l (S i) i
                (<[i := itemKey (Props.rowKey props) it i]> keys)
                ltac:(lia)) as Hb.
  assert (E : renderItem props it i keys
              = (render it i, <[i := itemKey (Props.rowKey props) it i]> keys))
    by (unfold renderItem; now rewrite H).
  rewrite !E.
  specialize (IH (S i) (<[i := itemKey (Props.rowKey props) it i]> keys)).
  destruct (mapItems props l (S i) _) as [ns keys2]. simpl in *.
  destruct IH as [IHlen IH]. split; [now rewrite IHlen|].
  intros [|j] x Hj; simpl in Hj.
  - inversion Hj; subst. rewrite Nat.add_0_r. split; [done|].
    rewrite Hb. apply lookup_insert_eq.
  - replace (i + S j)%nat with (S i + j)%nat by lia. simpl. now apply IH.
Qed.

Lemma forEach_cons {A} (callback : node -> nat -> A -> M A) (child : node)
    (rest : list node) (i : nat) (acc : A) :
  forEach callback (child :: rest) i acc
  = callback child i acc ≫= forEach callback rest (S i).
Proof. reflexivity. Qed.

Lemma pushClone_element (keys : keymap) (k0 : option string) (c : string)
    (i : nat) (acc : list node) (w : world) :
  pushClone keys (NElem k0 c) i acc w
  = Ok (acc ++ [NElem (keyed (key_at keys i) k0) c]) w.
Proof. reflexivity. Qed.

(** [React.Children.forEach] with [pushClone], on children that are all
    elements: every child is cloned under the key of its index. *)
Lemma forEach_elements (keys : keymap) (items : list node) (i : nat)
    (acc : list node) (w : world) :
  (forall j, items !! j <> Some NNull) ->
  exists cl,
    forEach (pushClone keys) items i acc w = Ok (acc ++ cl) w
    /\ length cl = length items
    /\ forall j k0 c, items !! j = Some (NElem k0 c) ->
         cl !! j = Some (NElem (keyed (key_at keys (i + j)) k0) c).
Proof.
  revert i acc. induction items as [|n items IH]; intros i acc Hn.
  { exists []. simpl. rewrite app_nil_r. split; [done|]. split; [done|].
    intros j k0 c Hj. now rewrite lookup_nil in Hj. }
  destruct n as [|k0 c]; [now specialize (Hn 0%nat)|].
  destruct (IH (S i) (acc ++ [NElem (keyed (key_at keys i) k0) c])
              (fun j => Hn (S j))) as (cl & Hrun & Hlen & Hcl).
  exists (NElem (keyed (key_at keys i) k0) c :: cl).
  split; [|split].
  - rewrite forEach_cons.
    rewrite (bind_Ok _ _ _ _ _ (pushClone_element keys k0 c i acc w)).
    rewrite Hrun. now rewrite <- app_assoc.
  - simpl. now rewrite Hlen.
  - intros [|j] k1 c1 Hj; simpl in Hj.
    + inversion Hj; subst. now rewrite Nat.add_0_r.
    + replace (i + S j)%nat with (S i + j)%nat by lia. simpl. now apply Hcl.
Qed.

(** A [null] child makes [React.cloneElement] throw; the world is as it
    was. *)
Lemma forEach_null_first (keys : keymap) (items : list node) (i : nat)
    (acc : list node) (w : world) :
  forEach (pushClone keys) (NNull :: items) i acc w = Throw CloneElementOfNull w.
Proof. reflexivity. Qed.

(** [React.Children.forEach] with [pushClone] never changes the world. *)
Lemma forEach_final (keys : keymap) (items : list node) (i : nat)
    (acc : list node) (w : world) :
  final (forEach (pushClone keys) items i acc w) = w.
Proof.
  revert i acc. induction items as [|n items IH]; intros i acc; [done|].
  destruct n as [|k0 c]; [done|].
  rewrite forEach_cons.
  rewrite (bind_Ok _ _ _ _ _ (pushClone_element keys k0 c i acc w)).
  apply IH.
Qed.

Lemma childrenContent_final props re (split : list item) (w : world) :
  final (childrenContent props re split w) = w.
Proof.
  unfold childrenContent. case_bool_decide.
  - destruct (mapItems props split 0 ∅) as [items keys].
    pose proof (forEach_final keys items 0 [] w) as Hf.
    unfold mbind, M_bind. destruct (forEach _ _ _ _ w); simpl in *; now subst.
  - now destruct (_ && _).
Qed.

(** ** One render pass *)

(** A render pass, given the array of the [dataSource] prop: the body is
    computed from the slice, in a world that differs from the one before by
    the initialisation of the cells and by new arrays. *)
Lemma List_run props re (w : world) (ds : list item) :
  source props w = Some ds ->
  exists extra,
    List props re w
    = match childrenContent props re
              (slice_of (Props.pagination props) (effectiveProps props w ds) ds)
              (rendered props w extra) with
      | Ok content _ =>
          Ok (view_of props (effectiveProps props w ds) content)
             (rendered props w extra)
      | Throw e _ => Throw e (rendered props w extra)
      end.
Proof.
  intros Hs. unfold List.
  fold (seedCurrent props) (seedSize props).
  assert (Hstate : forall B (f : JS.num -> JS.num -> M B),
    (useStateCurrent (seedCurrent props) ≫= fun cur =>
     useStateSize (seedSize props) ≫= fun size => f cur size) w
    = f (shadowCurrent props w) (shadowSize props w) (rendered props w [])).
  { intros B f. destruct w as [c s h k].
    unfold rendered, shadowCurrent, shadowSize. simpl. rewrite app_nil_r.
    destruct c, s; reflexivity. }
  rewrite Hstate. clear Hstate.
  set (w1 := rendered props w []).
  (* the array of the data source, and the arrays allocated for it *)
  assert (Hd : exists l pre, heap w ++ pre = heap w ++ pre /\
     (match Props.dataSource props with
      | Some l => mret l
      | None => alloc []
      end) w1 = Ok l (rendered props w pre)
     /\ (heap w ++ pre) !! l = Some ds).
  { unfold source in Hs. destruct (Props.dataSource props) as [l|].
    - exists l, []. split; [done|]. split; [reflexivity|].
      now rewrite app_nil_r.
    - inversion Hs; subst. exists (length (heap w)), [[]].
      split; [done|]. split.
      + unfold alloc, w1, rendered, set_heap. simpl.
        rewrite app_nil_r. reflexivity.
      + rewrite lookup_app_r by lia. now rewrite Nat.sub_diag. }
  destruct Hd as (l & pre & _ & Hl & Hget).
  rewrite (bind_Ok _ _ _ _ _ Hl).
  rewrite (bind_Ok _ _ _ _ _ (read_Ok l ds (rendered props w pre) Hget)).
  fold (effectiveProps props w ds).
  destruct (splitDataSource_run (Props.pagination props)
              (effectiveProps props w ds) l ds (rendered props w pre) Hget)
    as (l' & extra & Hsplit & Hslice).
  rewrite (bind_Ok _ _ _ _ _ Hsplit).
  assert (Hw : set_heap (heap (rendered props w pre) ++ extra)
                 (rendered props w pre) = rendered props w (pre ++ extra)).
  { unfold set_heap, rendered. simpl. now rewrite <- app_assoc. }
  rewrite Hw. exists (pre ++ extra).
  assert (Hr : heap (rendered props w (pre ++ extra)) !! l'
               = Some (slice_of (Props.pagination props)
                         (effectiveProps props w ds) ds)).
  { simpl. simpl in Hslice. now rewrite app_assoc. }
  rewrite (bind_Ok _ _ _ _ _ (read_Ok _ _ _ Hr)).
  pose proof (childrenContent_final props re
    (slice_of (Props.pagination props) (effectiveProps props w ds) ds)
    (rendered props w (pre ++ extra))) as Hf.
  unfold mbind at 1, M_bind at 1.
  destruct (childrenContent _ _ _ _) as [content w'|e w']; simpl in Hf; subst w'.
  - reflexivity.
  - reflexivity.
Qed.

(** A [dataSource] prop that refers to no array stops the render at the
    first read. *)
Lemma List_dangling props re (w : world) :
  source props w = None ->
  List props re w = Throw Dangling (rendered props w []).
Proof.
  intros Hs. unfold List, source in *.
  destruct (Props.dataSource props) as [l|]; [|done].
  fold (seedCurrent props) (seedSize props).
  destruct w as [c s h k]. unfold rendered, shadowCurrent, shadowSize.
  simpl in *. rewrite app_nil_r.
  destruct c, s; unfold mbind, M_bind, useStateCurrent, useStateSize, mret,
    M_ret, read; simpl; now rewrite Hs.
Qed.

(** ** The frame of a render pass *)

(** C10. A render pass does not change the pagination shadow state: a cell
    that exists keeps its value (a cell that does not exist yet is created
    with its initial value), also when the render clamps the [current] of
    the pagination props; every array that existed before the render,
    the caller's [dataSource] among them, has the same contents after it;
    and no caller handler is invoked. *)
Theorem render_leaves_shadow_state props re (w : world) :
  let w' := final (List props re w) in
  match paginationCurrent w with
  | Some c => paginationCurrent w' = Some c
  | None => paginationCurrent w' = Some (seedCurrent props)
  end
  /\ match paginationSize w with
     | Some s => paginationSize w' = Some s
     | None => paginationSize w' = Some (seedSize props)
     end
  /\ take (length (heap w)) (heap w') = heap w
  /\ source props w' = source props w
  /\ calls w' = calls w.
Proof.
  assert (Hf : exists extra,
    final (List props re w) = rendered props w extra
    /\ (source props w = None -> extra = [])).
  { destruct (source props w) as [ds|] eqn:Hs.
    - destruct (List_run props re w ds Hs) as [extra ->].
      exists extra. split; [|done]. now destruct (childrenContent _ _ _ _).
    - exists []. now rewrite (List_dangling props re w Hs). }
  destruct Hf as (extra & -> & Hnone). simpl.
  unfold shadowCurrent, shadowSize.
  split; [now destruct (paginationCurrent w)|].
  split; [now destruct (paginationSize w)|].
  split; [now rewrite take_app_length|].
  split; [|done].
  unfold source in *. simpl. destruct (Props.dataSource props) as [l|]; [|done].
  destruct (heap w !! l) as [a|] eqn:E.
  - rewrite lookup_app_l; [done|]. now apply lookup_lt_Some in E.
  - rewrite (Hnone eq_refl), app_nil_r. exact E.
Qed.

(** ** Pagination events *)

(** C6. A change event of the pagination control with arguments
    [(page, pageSize)] always ends with the two shadow cells holding [page]
    and [pageSize], whatever the pagination props hold (controlled or not).
    For the event [onChange] the caller's [onChange] handler, and for the
    event [onShowSizeChange] the caller's [onShowSizeChange] handler, is
    invoked exactly when the caller supplied it: once, with the same
    arguments, and after both updates were issued, so that the values which
    the next render reads are [(page, pageSize)] when it is called.  A
    handler of the other name is not invoked, and without pagination props
    nothing is invoked.  Arrays are not touched. *)
Theorem pagination_event_updates_then_calls
    (pagination : option Props.PaginationConfig) (ev : eventName)
    (page size : JS.num) (w : world) :
  let supplied :=
    match pagination, ev with
    | Some p, EvChange => Props.onChange p
    | Some p, EvShowSizeChange => Props.onShowSizeChange p
    | None, _ => false
    end in
  triggerPaginationEvent pagination ev page size w
  = Ok tt {| paginationCurrent := Some page;
             paginationSize := Some size;
             heap := heap w;
             calls := calls w ++
               (if supplied
                then [{| call_event := ev; call_page := page;
                         call_pageSize := size;
                         call_seen := (Some page, Some size) |}]
                else []) |}.
Proof.
  unfold triggerPaginationEvent, mbind, M_bind, setPaginationCurrent,
    setPaginationSize. simpl.
  destruct pagination as [p|]; [|simpl; now rewrite app_nil_r].
  destruct ev; unfold handler_of.
  - destruct (Props.onChange p);
      unfold invoke, add_call, mret, M_ret, set_size, set_current; simpl;
      rewrite ?app_nil_r; reflexivity.
  - destruct (Props.onShowSizeChange p);
      unfold invoke, add_call, mret, M_ret, set_size, set_current; simpl;
      rewrite ?app_nil_r; reflexivity.
Qed.

(** The controlled configuration [{ current: 1, pageSize: 2, onChange }],
    with an [onChange] handler and no [onShowSizeChange] handler, on a
    mounted component: the event [onChange(3, 5)] writes both cells and then
    calls the handler; the event [onShowSizeChange(1, 20)] writes both cells
    and calls nothing. *)
Lemma pagination_event_updates_then_calls_witness :
  let pg := {| Props.current := Some (JS.Int 1);
               Props.pageSize := Some (JS.Int 2);
               Props.total := None; Props.defaultCurrent := None;
               Props.defaultPageSize := None; Props.position := None;
               Props.onChange := true; Props.onShowSizeChange := false |} in
  let w := {| paginationCurrent := Some (JS.Int 1);
              paginationSize := Some (JS.Int 10);
              heap := [[entry "a"]]; calls := [] |} in
  onPaginationChange (Some pg) (JS.Int 3) (JS.Int 5) w
  = Ok tt {| paginationCurrent := Some (JS.Int 3);
             paginationSize := Some (JS.Int 5);
             heap := [[entry "a"]];
             calls := [{| call_event := EvChange; call_page := JS.Int 3;
                          call_pageSize := JS.Int 5;
                          call_seen := (Some (JS.Int 3), Some (JS.Int 5)) |}] |}
  /\ onPaginationShowSizeChange (Some pg) (JS.Int 1) (JS.Int 20) w
     = Ok tt {| paginationCurrent := Some (JS.Int 1);
                paginationSize := Some (JS.Int 20);
                heap := [[entry "a"]];
                calls := [] |}.
Proof.
  intros pg w. split.
  - exact (pagination_event_updates_then_calls (Some pg) EvChange
             (JS.Int 3) (JS.Int 5) w).
  - exact (pagination_event_updates_then_calls (Some pg) EvShowSizeChange
             (JS.Int 1) (JS.Int 20) w).
Defined.

(** ** The clamp of the current page *)

Lemma ceil_bracket (n p : Z) :
  0 < p -> p * (- ((- n) / p) - 1) < n <= p * (- ((- n) / p)).
Proof.
  intros Hp.
  pose proof (Z.div_mod (- n) p ltac:(lia)) as Hd.
  pose proof (Z.mod_pos_bound (- n) p Hp) as Hm.
  nia.
Qed.

(** C1, as the code has it.  With pagination enabled, a positive integer
    page size [p] and no [total] override, the largest page is
    [L = ceil(n / p)] for a data source of length [n]; a current page that
    exceeds [L] is set to [L], any other is left as it is.  For [n >= 1]
    that value is [max(1, L)], at least 1; for [n = 0] it is 0: the clamp
    has no lower bound. *)
Theorem clamp_to_largest_page (pg : Props.PaginationConfig) (n : nat)
    (cur size : JS.num) (p : Z) :
  Props.total pg = None ->
  default size (Props.pageSize pg) = JS.Int p ->
  0 < p ->
  let pp0 := paginationProps (Some pg) n cur size in
  let L := - ((- Z.of_nat n) / p) in
  p * (L - 1) < Z.of_nat n <= p * L
  /\ largestPage pp0 = JS.Int L
  /\ pp_current (clampCurrent pp0)
     = (if JS.gt (pp_current pp0) (JS.Int L) then JS.Int L else pp_current pp0)
  /\ L = (if bool_decide (n = 0%nat) then 0 else Z.max 1 L).
Proof.
  intros Ht Hp Hpos pp0 L.
  pose proof (ceil_bracket (Z.of_nat n) p Hpos) as Hb. fold L in Hb.
  assert (HL : largestPage pp0 = JS.Int L).
  { unfold largestPage, pp0, paginationProps. simpl. rewrite Ht, Hp. simpl.
    destruct p; try lia. reflexivity. }
  split; [exact Hb|]. split; [exact HL|]. split.
  - unfold clampCurrent. rewrite HL. now destruct (JS.gt _ _).
  - case_bool_decide; [subst n; simpl in Hb; nia | nia].
Qed.

Lemma clamp_to_largest_page_witness :
  let pg := paging None (Some (JS.Int 2)) in
  let pp0 := paginationProps (Some pg) 3 (JS.Int 5) (JS.Int 10) in
  let L := - ((- Z.of_nat 3) / 2) in
  2 * (L - 1) < Z.of_nat 3 <= 2 * L
  /\ largestPage pp0 = JS.Int L
  /\ pp_current (clampCurrent pp0)
     = (if JS.gt (pp_current pp0) (JS.Int L) then JS.Int L else pp_current pp0)
  /\ L = (if bool_decide (3%nat = 0%nat) then 0 else Z.max 1 L).
Proof.
  exact (clamp_to_largest_page (paging None (Some (JS.Int 2))) 3
           (JS.Int 5) (JS.Int 10) 2 eq_refl eq_refl eq_refl).
Defined.

(** C1, as the specification states it, fails for an empty data source:
    with the configuration [{}] the current page 1 exceeds the largest page
    [ceil(0 / 10) = 0], and the pagination control receives [current = 0],
    not [max(1, 0) = 1]. *)
Lemma clamp_reaches_zero :
  let props := propsOf (Some Props.emptyPagination) (Some label) None in
  let pp0 := paginationProps (Props.pagination props) 0 (JS.Int 1) (JS.Int 10) in
  JS.gt (pp_current pp0) (largestPage pp0) = true
  /\ largestPage pp0 = JS.Int 0
  /\ pp_current (clampCurrent pp0) <> JS.Int (Z.max 1 0)
  /\ exists v w',
       List props emptyNode (unmounted []) = Ok v w'
       /\ v_tail v = TailPagination (clampCurrent pp0)
       /\ pp_current (clampCurrent pp0) = JS.Int 0.
Proof.
  split; [reflexivity|]. split; [reflexivity|]. split; [discriminate|].
  eexists _, _. split; [vm_compute; reflexivity|]. split; reflexivity.
Qed.

(** ** The visible slice *)

Lemma slice_of_window (pg : Props.PaginationConfig) (pp : PaginationProps)
    (ds : list item) (p c : Z) :
  pp_current pp = JS.Int c -> pp_pageSize pp = JS.Int p ->
  1 <= c -> 0 <= p ->
  window_as_specified ds (slice_of (Some pg) pp ds) p c.
Proof.
  intros Hc Hp Hc1 Hp0.
  unfold window_as_specified, slice_of, pageStart. rewrite Hc, Hp. simpl.
  assert (Hs : 0 <= (c - 1) * p) by nia.
  case_bool_decide as Hlt; [|done].
  unfold splice_removed, splice_start, splice_count.
  rewrite bool_decide_eq_false_2 by lia.
  replace (Z.min ((c - 1) * p) (Z.of_nat (length ds))) with ((c - 1) * p) by lia.
  replace (Z.min (Z.max p 0)
             (Z.of_nat (length ds - Z.to_nat ((c - 1) * p))))
    with (Z.min p (Z.of_nat (length ds) - (c - 1) * p)) by lia.
  split; [done|].
  rewrite length_take, length_drop. lia.
Qed.

(** An empty data source has an empty slice, whatever the page. *)
Lemma slice_of_nil pagination (pp : PaginationProps) :
  slice_of pagination pp [] = [].
Proof.
  unfold slice_of. destruct pagination; [|done].
  destruct (JS.gt _ _); [|done].
  unfold splice_removed. now rewrite drop_nil, take_nil.
Qed.

(** C2, as the code has it.  With pagination enabled, an integer page size
    [p >= 0] and an integer current page [c >= 1] (clamped or not),
    [splitDataSource] is a new array that holds, when [(c - 1) * p < n], the
    [min(p, n - (c - 1) * p)] elements of the data source from the index
    [(c - 1) * p] on, and otherwise the whole data source; the array of the
    data source itself is as it was. *)
Theorem slice_is_page_window (pg : Props.PaginationConfig)
    (pp : PaginationProps) (l : loc) (ds : list item) (w : world) (p c : Z) :
  heap w !! l = Some ds ->
  pp_current pp = JS.Int c -> pp_pageSize pp = JS.Int p ->
  1 <= c -> 0 <= p ->
  exists (l' : loc) (w' : world) (slice : list item),
    splitDataSource (Some pg) pp l w = Ok l' w'
    /\ heap w' !! l' = Some slice
    /\ heap w' !! l = Some ds
    /\ window_as_specified ds slice p c.
Proof.
  intros Hl Hc Hp Hc1 Hp0.
  destruct (splitDataSource_run (Some pg) pp l ds w Hl)
    as (l' & extra & Hrun & Hslice).
  exists l', (set_heap (heap w ++ extra) w), (slice_of (Some pg) pp ds).
  split; [exact Hrun|]. split; [exact Hslice|]. split.
  - simpl. rewrite lookup_app_l; [done|]. now apply lookup_lt_Some in Hl.
  - now apply slice_of_window.
Qed.

Lemma slice_is_page_window_witness :
  exists (l' : loc) (w' : world) (slice : list item),
    splitDataSource (Some (paging None (Some (JS.Int 2))))
      {| pp_current := JS.Int 2; pp_total := JS.Int 3;
         pp_pageSize := JS.Int 2; pp_position := None |}
      0%nat (unmounted [entry "a"; entry "b"; entry "c"]) = Ok l' w'
    /\ heap w' !! l' = Some slice
    /\ heap w' !! 0%nat = Some [entry "a"; entry "b"; entry "c"]
    /\ window_as_specified [entry "a"; entry "b"; entry "c"] slice 2 2.
Proof.
  apply (slice_is_page_window (paging None (Some (JS.Int 2)))
           {| pp_current := JS.Int 2; pp_total := JS.Int 3;
              pp_pageSize := JS.Int 2; pp_position := None |}
           0%nat [entry "a"; entry "b"; entry "c"]
           (unmounted [entry "a"; entry "b"; entry "c"]) 2 2);
    [reflexivity | reflexivity | reflexivity | lia | lia].
Defined.

(** C2, as the specification states it, fails for the current page that the
    clamp produces on an empty data source.  With the configuration [{}] the
    clamped page is [c = 0] and [p = 10]: [(c - 1) * p = -10 < 0 = n], so the
    slice should have [min(10, 0 + 10) = 10] elements, and it has none.
    With [{ current: 0, pageSize: 2 }] on three items the start index is
    [-2], which [splice] counts from the end: the slice is [[b; c]], not the
    first two items. *)
Lemma window_fails_below_page_one :
  (let props := propsOf (Some Props.emptyPagination) (Some label) None in
   let pp := effectiveProps props (unmounted []) [] in
   pp_current pp = JS.Int 0 /\ pp_pageSize pp = JS.Int 10
   /\ (exists l' w',
         splitDataSource (Props.pagination props) pp 0%nat (unmounted [])
         = Ok l' w' /\ heap w' !! l' = Some [])
   /\ ~ window_as_specified [] [] 10 0)
  /\ (let ds := [entry "a"; entry "b"; entry "c"] in
      let props := propsOf (Some (paging (Some (JS.Int 0)) (Some (JS.Int 2))))
                     (Some label) None in
      let pp := effectiveProps props (unmounted ds) ds in
      pp_current pp = JS.Int 0 /\ pp_pageSize pp = JS.Int 2
      /\ (exists l' w',
            splitDataSource (Props.pagination props) pp 0%nat (unmounted ds)
            = Ok l' w' /\ heap w' !! l' = Some [entry "b"; entry "c"])
      /\ ~ window_as_specified ds [entry "b"; entry "c"] 2 0).
Proof.
  split.
  - split; [reflexivity|]. split; [reflexivity|]. split.
    + eexists _, _. split; reflexivity.
    + unfold window_as_specified. simpl. intros [_ H]. discriminate H.
  - split; [reflexivity|]. split; [reflexivity|]. split.
    + eexists _, _. split; reflexivity.
    + unfold window_as_specified. simpl. intros [H _].
      apply (f_equal (fun s => (fun x : item => x !! "key"%string) <$> s)) in H.
      vm_compute in H. discriminate H.
Qed.

(** ** The body while loading *)

Lemma forEach_in_world (keys : keymap) (items : list node) (i : nat)
    (acc : list node) (w w0 : world) :
  forEach (pushClone keys) items i acc w
  = in_world w (forEach (pushClone keys) items i acc w0).
Proof.
  revert i acc. induction items as [|n items IH]; intros i acc; [done|].
  destruct n as [|k0 c]; [done|].
  rewrite !forEach_cons.
  rewrite (bind_Ok _ _ _ _ _ (pushClone_element keys k0 c i acc w)).
  rewrite (bind_Ok _ _ _ _ _ (pushClone_element keys k0 c i acc w0)).
  apply IH.
Qed.

(** The body does not depend on the world. *)
Lemma childrenContent_in_world props re (split : list item) (w w0 : world) :
  childrenContent props re split w
  = in_world w (childrenContent props re split w0).
Proof.
  unfold childrenContent. case_bool_decide.
  - destruct (mapItems props split 0 ∅) as [items keys].
    unfold mbind, M_bind. rewrite (forEach_in_world keys items 0 [] w w0).
    now destruct (forEach _ _ _ _ w0).
  - now destruct (_ && _).
Qed.

Lemma forEach_length (keys : keymap) (items : list node) (i : nat)
    (acc cl : list node) (w w' : world) :
  forEach (pushClone keys) items i acc w = Ok cl w' ->
  length cl = (length acc + length items)%nat.
Proof.
  revert i acc. induction items as [|n items IH]; intros i acc H.
  { inversion H; subst. simpl. lia. }
  destruct n as [|k0 c]; [discriminate H|].
  rewrite forEach_cons in H.
  rewrite (bind_Ok _ _ _ _ _ (pushClone_element keys k0 c i acc w)) in H.
  apply IH in H. rewrite H, length_app. simpl. lia.
Qed.

(** With items in the slice, the body is the list (or the grid) of their
    clones, loading or not. *)
Lemma childrenContent_items props re (split : list item) (w w' : world)
    (content : body) :
  split <> [] ->
  childrenContent props re split w = Ok content w' ->
  exists cl, length cl = length split
    /\ content = match Props.grid props with
                 | Some g => BGrid (Props.gutter g) cl
                 | None => BItems cl
                 end.
Proof.
  intros Hne H. unfold childrenContent in H.
  rewrite bool_decide_eq_true_2 in H by (destruct split; simpl; [done|lia]).
  assert (Hlen : length (mapItems props split 0 ∅).1 = length split).
  { destruct (Props.renderItem props) as [render|] eqn:Er.
    - now destruct (mapItems_render props render split 0%nat ∅ Er).
    - rewrite (mapItems_missing props split 0 ∅ Er). simpl.
      now rewrite length_replicate. }
  destruct (mapItems props split 0 ∅) as [items keys]. simpl in Hlen.
  unfold mbind, M_bind in H.
  destruct (forEach (pushClone keys) items 0 [] w) as [cl w1|] eqn:Hf;
    [|discriminate H].
  apply forEach_length in Hf. simpl in Hf.
  exists cl. split; [lia|]. unfold mret, M_ret in H. now inversion H.
Qed.

Lemma childrenContent_loading props re (l : option Props.loadingT)
    (split : list item) (w : world) :
  split <> [] ->
  childrenContent (with_loading l props) re split w
  = childrenContent props re split w.
Proof.
  intros Hne. unfold childrenContent.
  rewrite !bool_decide_eq_true_2 by (destruct split; simpl; [done|lia]).
  assert (Hm : forall i keys,
    mapItems (with_loading l props) split i keys = mapItems props split i keys).
  { clear Hne. induction split as [|it split IH]; intros i keys; [done|].
    cbn [mapItems].
    change (renderItem (with_loading l props) it i keys)
      with (renderItem props it i keys).
    destruct (renderItem props it i keys) as [n keys1]. now rewrite IH. }
  rewrite Hm. reflexivity.
Qed.

(** C3, as the code has it.  Take a render with [loading = false] that
    succeeds, and render again with [loading = true].  The second render
    succeeds as well, its loading wrapper spins, and the caller's children
    are rendered after the body.  When the visible slice is not empty the
    body is the same as before: the list (or grid) of the rendered items,
    one per item of the slice.  The placeholder of minimal height is the
    body only when the visible slice is empty. *)
Theorem loading_keeps_items props re (w : world) (ds : list item)
    (v1 : view) (w1 : world) :
  source props w = Some ds ->
  List (with_loading (Some (Props.LBool false)) props) re w = Ok v1 w1 ->
  let slice :=
    slice_of (Props.pagination props) (effectiveProps props w ds) ds in
  exists (v2 : view) (w2 : world),
    List (with_loading (Some (Props.LBool true)) props) re w = Ok v2 w2
    /\ v_spin v2 = Some {| sp_spinning := Some true |}
    /\ v_children v2 = Props.children props
    /\ (slice <> [] ->
        v_content v2 = v_content v1
        /\ exists cl, length cl = length slice
             /\ v_content v2 = match Props.grid props with
                               | Some g => BGrid (Props.gutter g) cl
                               | None => BItems cl
                               end)
    /\ (slice = [] -> v_content v2 = BPlaceholder).
Proof.
  intros Hs Hoff slice.
  set (off := with_loading (Some (Props.LBool false)) props) in *.
  set (on := with_loading (Some (Props.LBool true)) props).
  destruct (List_run off re w ds Hs) as [e1 H1].
  destruct (List_run on re w ds Hs) as [e2 H2].
  change (slice_of (Props.pagination off) (effectiveProps off w ds) ds)
    with slice in H1.
  change (slice_of (Props.pagination on) (effectiveProps on w ds) ds)
    with slice in H2.
  rewrite H1 in Hoff. rewrite H2. clear H1 H2.
  set (wOff := rendered off w e1) in *. set (wOn := rendered on w e2).
  clearbody wOff wOn. subst off on.
  destruct (decide (slice = [])) as [Hnil|Hne].
  - rewrite Hnil.
    assert (Hon : childrenContent
                    (with_loading (Some (Props.LBool true)) props) re [] wOn
                  = Ok BPlaceholder wOn).
    { unfold childrenContent. simpl. now rewrite andb_false_r. }
    rewrite Hon. eexists _, _. split; [reflexivity|].
    split; [reflexivity|]. split; [reflexivity|]. split; [done|]. done.
  - rewrite (childrenContent_loading props re _ slice _ Hne) in Hoff.
    rewrite (childrenContent_loading props re _ slice _ Hne).
    rewrite (childrenContent_in_world props re slice wOn wOff).
    destruct (childrenContent props re slice wOff)
      as [content w0|] eqn:Hc; [|discriminate Hoff].
    inversion Hoff; subst v1 w1. simpl.
    eexists _, _. split; [reflexivity|].
    split; [reflexivity|]. split; [reflexivity|]. split; [|done].
    intros _. split; [reflexivity|].
    exact (childrenContent_items props re slice _ _ content Hne Hc).
Qed.

Lemma loading_keeps_items_witness :
  let props := propsOf None (Some label) None in
  let w := unmounted [entry "a"; entry "b"] in
  exists (v2 : view) (w2 : world),
    List (with_loading (Some (Props.LBool true)) props) emptyNode w = Ok v2 w2
    /\ v_spin v2 = Some {| sp_spinning := Some true |}
    /\ v_children v2 = NNull
    /\ v_content v2 = BItems [NElem (Some "a") "a"; NElem (Some "b") "b"].
Proof.
  intros props w.
  destruct (loading_keeps_items props emptyNode w [entry "a"; entry "b"]
              (view_of (with_loading (Some (Props.LBool false)) props)
                 (effectiveProps props w [entry "a"; entry "b"])
                 (BItems [NElem (Some "a") "a"; NElem (Some "b") "b"]))
              (rendered props w [[entry "a"; entry "b"]])
              eq_refl eq_refl)
    as (v2 & w2 & Hrun & Hspin & Hch & Hitems & _).
  exists v2, w2. split; [exact Hrun|]. split; [exact Hspin|].
  split; [exact Hch|].
  destruct (Hitems ltac:(discriminate)) as [Hsame _]. exact Hsame.
Defined.

(** C3, as the specification states it, fails: a list of one item that is
    rendered with [loading = true] has the item list as its body, the same
    as with [loading = false], and not the placeholder. *)
Lemma loading_body_is_not_placeholder :
  let w := unmounted [entry "a"] in
  exists v1 w1 v2 w2,
    List (propsOf None (Some label) (Some (Props.LBool false))) emptyNode w
    = Ok v1 w1
    /\ List (propsOf None (Some label) (Some (Props.LBool true))) emptyNode w
       = Ok v2 w2
    /\ v_content v1 = BItems [NElem (Some "a") "a"]
    /\ v_content v2 = BItems [NElem (Some "a") "a"]
    /\ v_content v2 <> BPlaceholder.
Proof.
  eexists _, _, _, _.
  split; [vm_compute; reflexivity|]. split; [vm_compute; reflexivity|].
  split; [reflexivity|]. split; [reflexivity|]. discriminate.
Qed.

(** ** The direction under nested providers *)

(** The published direction is the [direction] prop, whatever the inherited
    context holds. *)
Lemma config_direction props context legacyLocale :
  Context.direction (ConfigProvider.config props context legacyLocale)
  = ProviderProps.direction props.
Proof. reflexivity. Qed.

(** Induction on trees, with the hypothesis for every child of a
    provider. *)
Lemma tree_nested_ind (P : tree -> Prop) :
  (forall name, P (Consumer name)) ->
  (forall props children, Forall P children -> P (Provider props children)) ->
  forall t, P t.
Proof.
  intros Hc Hp. fix IH 1. intros [name|props children]; [apply Hc|].
  apply Hp. induction children as [|t ts IHts]; constructor; [apply IH | exact IHts].
Qed.

Lemma directions_nearest (t : tree) :
  forall (context : Context.ConfigConsumerProps)
         (legacyLocale : option Locale.Locale),
    directions context legacyLocale t = nearest (Context.direction context) t.
Proof.
  induction t as [name|props children IH] using tree_nested_ind;
    intros context legacyLocale; [reflexivity|].
  unfold directions. cbn [observe nearest].
  set (r := ConfigProvider.renderProvider props children context legacyLocale).
  change (ProviderProps.direction props)
    with (Context.direction (ConfigProvider.value r)).
  generalize (ConfigProvider.value r) (ConfigProvider.localeProvider r).
  intros c l. clear r.
  induction IH as [|t ts Ht _ IHts]; [reflexivity|].
  cbn [flat_map]. rewrite fmap_app. f_equal; [apply Ht | apply IHts].
Qed.

(** C4, as the code has it.  In any tree of nested providers every consumer
    observes the [direction] prop of its nearest enclosing provider, and
    nothing of the providers further out.  So, under an outer provider that
    holds an inner provider between two consumers, the consumers outside the
    inner provider observe the direction of the outer one, and the consumer
    under the inner provider observes the direction of the inner one:
    ['ltr'] when the inner provider sets it, and no direction at all when
    the inner provider sets none. *)
Theorem nested_provider_direction (context : Context.ConfigConsumerProps)
    (legacyLocale : option Locale.Locale) :
  (forall t : tree,
     directions context legacyLocale t = nearest (Context.direction context) t)
  /\ (forall (outer inner : ProviderProps.ConfigProviderProps) (a b c : string),
        directions context legacyLocale
          (Provider outer [Consumer a; Provider inner [Consumer b]; Consumer c])
        = [(a, ProviderProps.direction outer);
           (b, ProviderProps.direction inner);
           (c, ProviderProps.direction outer)]).
Proof.
  split.
  - intros t. apply directions_nearest.
  - intros outer inner a b c. rewrite directions_nearest. reflexivity.
Qed.

(** C4, as the specification states it, fails in its first half: under an
    outer provider with ['rtl'], the consumer below an inner provider without
    a [direction] prop observes no direction, not ['rtl']. *)
Lemma inner_provider_drops_direction :
  directions rootContext None
    (Provider (providerProps (Some Rtl) None None)
       [Consumer "outside"; Provider (providerProps None None None)
                              [Consumer "inside"]])
  = [("outside"%string, Some Rtl); ("inside"%string, None)]
  /\ ("inside"%string, @None directionT) <> ("inside"%string, Some Rtl).
Proof. split; [reflexivity | discriminate]. Qed.

(** ** The validation messages of forms *)

(** C9, as the code has it.  The merged validation messages are the default
    messages of the [locale] prop (none when the prop, its form section or
    the messages are absent; the legacy locale is not consulted) with the
    messages of the [form] prop merged on top: for every key the local
    message wins, and a key without a local message keeps the default of the
    locale.  The children are wrapped in a form provider with the merged
    messages exactly when these are not empty, and otherwise passed through
    as they are. *)
Theorem merged_validate_messages {C} (props : ProviderProps.ConfigProviderProps)
    (children : C) (context : Context.ConfigConsumerProps)
    (legacyLocale : option Locale.Locale) :
  let defaults := localeMessages (ProviderProps.locale props) in
  let local := formMessages (ProviderProps.form props) in
  let merged := ConfigProvider.validateMessages props in
  (forall k, merged !! k = match local !! k with
                           | Some m => Some m
                           | None => defaults !! k
                           end)
  /\ ConfigProvider.child
       (ConfigProvider.renderProvider props children context legacyLocale)
     = (if decide (merged = ∅) then ConfigProvider.Unwrapped children
        else ConfigProvider.RcFormProvider merged children).
Proof.
  intros defaults local merged.
  assert (Hm : merged = local ∪ defaults).
  { unfold merged, local, defaults, ConfigProvider.validateMessages,
      localeMessages, formMessages.
    destruct (ProviderProps.form props) as [f|]; simpl;
      [destruct (ProviderProps.validateMessages f); simpl|];
      destruct (ProviderProps.locale props) as [l|]; simpl;
      try destruct (Locale.Form l) as [fl|]; simpl;
      try destruct (Locale.defaultValidateMessages fl); simpl;
      rewrite ?(left_id_L ∅ (∪)); reflexivity. }
  split.
  - intros k. rewrite Hm, lookup_union.
    destruct (local !! k), (defaults !! k); reflexivity.
  - unfold ConfigProvider.renderProvider. simpl. fold merged.
    destruct (decide (merged = ∅)) as [He|Hne].
    + rewrite He. reflexivity.
    + rewrite bool_decide_eq_true_2; [reflexivity|].
      apply map_size_non_empty_iff in Hne. lia.
Qed.

(** The example of the specification: the defaults [{ required: 'R' }] of
    the locale prop under the local [{ required: 'L2', email: 'E' }]. *)
Example merged_messages_example :
  ConfigProvider.validateMessages
    (providerProps None
       (Some {| Locale.locale := "en";
                Locale.Form := Some {| Locale.defaultValidateMessages :=
                                         Some {[ "required"%string := "R"%string ]} |} |})
       (Some {| ProviderProps.validateMessages :=
                  Some {[ "required"%string := "L2"%string;
                          "email"%string := "E"%string ]} |}))
  = {[ "required"%string := "L2"%string; "email"%string := "E"%string ]}.
Proof. apply map_eq. intros k. vm_compute. reflexivity. Qed.

(** C9, as the specification states it, fails for the resolved locale: a
    provider without a [locale] prop resolves its locale to the legacy one,
    and the default messages of that locale are not merged; the children are
    not wrapped. *)
Lemma legacy_locale_messages_ignored :
  let legacy :=
    {| Locale.locale := "en";
       Locale.Form := Some {| Locale.defaultValidateMessages :=
                                Some {[ "required"%string := "R"%string ]} |} |} in
  let r := ConfigProvider.renderProvider (providerProps None None None) tt
             rootContext (Some legacy) in
  Context.locale (ConfigProvider.value r) = Some legacy
  /\ ConfigProvider.localeProvider r = Some legacy
  /\ localeMessages (Some legacy) = {[ "required"%string := "R"%string ]}
  /\ ConfigProvider.child r = ConfigProvider.Unwrapped tt
  /\ ConfigProvider.child r
     <> ConfigProvider.RcFormProvider {[ "required"%string := "R"%string ]} tt.
Proof.
  split; [reflexivity|]. split; [reflexivity|]. split; [reflexivity|].
  split; [reflexivity|]. discriminate.
Qed.

(** ** Keys *)

Lemma keyed_itemKey (rowKey : option Props.rowKeyT) (it : item) (i : nat)
    (k0 : option string) :
  keyed (itemKey rowKey it i) k0 = Some (to_string (itemKey rowKey it i)).
Proof.
  unfold itemKey.
  destruct (truthy _) eqn:E; [|reflexivity].
  destruct (match rowKey with Some _ => _ | None => _ end); try done.
Qed.

(** The body of a slice whose items all render to elements: the clone of
    the node of every item, under the key that [renderItem] computed. *)
Lemma childrenContent_elements props render re (split : list item) (w : world) :
  Props.renderItem props = Some render ->
  (forall j x, split !! j = Some x -> render x j <> NNull) ->
  split <> [] ->
  exists childrenList,
    childrenContent props re split w
    = Ok (match Props.grid props with
          | Some g => BGrid (Props.gutter g) childrenList
          | None => BItems childrenList
          end) w
    /\ length childrenList = length split
    /\ forall i it k0 content,
         split !! i = Some it -> render it i = NElem k0 content ->
         childrenList !! i
         = Some (NElem (Some (to_string (itemKey (Props.rowKey props) it i)))
                   content).
Proof.
  intros Hr Helem Hne. unfold childrenContent.
  rewrite bool_decide_eq_true_2 by (destruct split; simpl; [done|lia]).
  destruct (mapItems_render props render split 0 ∅ Hr) as [Hlen Hitems].
  destruct (mapItems props split 0 ∅) as [items keys]. simpl in *.
  assert (Hnn : forall j, items !! j <> Some NNull).
  { intros j Hj. destruct (split !! j) as [x|] eqn:Ex.
    - destruct (Hitems j x Ex) as [Hn _]. rewrite Hn in Hj.
      inversion Hj as [Hj']. exact (Helem j x Ex Hj').
    - apply lookup_ge_None in Ex. apply lookup_lt_Some in Hj. lia. }
  destruct (forEach_elements keys items 0 [] w Hnn) as (cl & Hrun & Hcl & Hkeys).
  exists cl. rewrite (bind_Ok _ _ _ _ _ Hrun). simpl.
  split; [reflexivity|]. split; [lia|].
  intros i it k0 content Hi Hrender.
  destruct (Hitems i it Hi) as [Hn Hk]. rewrite Hrender in Hn.
  rewrite (Hkeys i k0 content Hn). simpl.
  unfold key_at. rewrite Hk. simpl. now rewrite keyed_itemKey.
Qed.




(** The tiers on one item [{ key: 'k', id: 'x' }]: a function wins over the
    [key] field, a field name reads that field, and without [rowKey] the
    [key] field is used.  An item without a key on the second page of size
    one gets its position in the slice, [0], not its position in the data
    source. *)
Example key_tiers :
  let it : item := {[ "key"%string := VStr "k"; "id"%string := VStr "x" ]} in
  let props := propsOf None (Some label) None in
  rendered_items (List (with_rowKey (Some (Props.RowKeyFn (fun _ => "f"%string))) props)
                    emptyNode (unmounted [it]))
  = Some [NElem (Some "f") "k"]
  /\ rendered_items (List (with_rowKey (Some (Props.RowKeyStr "id")) props)
                       emptyNode (unmounted [it]))
     = Some [NElem (Some "x") "k"]
  /\ rendered_items (List props emptyNode (unmounted [it]))
     = Some [NElem (Some "k") "k"]
  /\ rendered_items (List (with_rowKey (Some (Props.RowKeyFn (fun _ => ""%string))) props)
                       emptyNode (unmounted [it]))
     = Some [NElem (Some "list-item-0") "k"]
  /\ rendered_items
       (List (propsOf (Some (paging (Some (JS.Int 2)) (Some (JS.Int 1))))
                (Some label) None)
          emptyNode (unmounted [it; ∅]))
     = Some [NElem (Some "list-item-0") "undefined"].
Proof. repeat split; vm_compute; reflexivity. Qed.

(** ** A missing [renderItem] *)

(** Without a [renderItem] prop the nodes of a non-empty slice are all
    [null], and cloning the first of them throws; an empty slice has no node
    to clone. *)
Lemma childrenContent_missing_renderItem props re (split : list item) (w : world) :
  Props.renderItem props = None ->
  (mapItems props split 0 ∅).1 = replicate (length split) NNull
  /\ (split <> [] ->
      childrenContent props re split w = Throw CloneElementOfNull w)
  /\ (split = [] -> exists content,
        childrenContent props re split w = Ok content w
        /\ content <> BItems [] /\ forall g, content <> BGrid g []).
Proof.
  intros H. rewrite (mapItems_missing props split 0 ∅ H). simpl.
  split; [reflexivity|]. split.
  - intros Hne. unfold childrenContent.
    rewrite bool_decide_eq_true_2 by (destruct split; simpl; [done|lia]).
    rewrite (mapItems_missing props split 0 ∅ H).
    destruct split as [|it split]; [done|]. reflexivity.
  - intros ->. unfold childrenContent. simpl.
    destruct (_ && _); [unfold renderEmptyFunc; destruct (Props.locale props) as [l|];
                        [destruct (present _)|]|destruct (isLoading _)];
      eexists; (split; [reflexivity|]); split; try discriminate;
      intros g; discriminate.
Qed.

(** C7: the render of one item without a [renderItem] prop.  The inner
    [renderItem] returns [null] for the item, and the render then throws,
    in [React.cloneElement]. *)
Theorem missing_renderItem_throws :
  let props := propsOf None None None in
  mapItems props [entry "a"] 0 ∅ = ([NNull], ∅)
  /\ exists w', List props emptyNode (unmounted [entry "a"])
                = Throw CloneElementOfNull w'.
Proof. split; [reflexivity|]. eexists. vm_compute. reflexivity. Qed.

(** ** Page sizes that are not positive *)

Lemma clampCurrent_pageSize (pp : PaginationProps) :
  pp_pageSize (clampCurrent pp) = pp_pageSize pp.
Proof. unfold clampCurrent. now destruct (JS.gt _ _). Qed.

Lemma splice_removed_none {A} (l : list A) (start : JS.num) (d : Z) :
  d <= 0 -> splice_removed l start (JS.Int d) = [].
Proof.
  intros Hd. unfold splice_removed, splice_count.
  replace (Z.min (Z.max d 0) _) with 0 by lia. reflexivity.
Qed.

(** A page size of zero, with an integer current page and a total that is
    not negative: the largest page is [Infinity] or [NaN], nothing is
    clamped, the start index is 0, and [splice] removes no element. *)
Lemma slice_pageSize_zero (pg : Props.PaginationConfig) (pp0 : PaginationProps)
    (ds : list item) (c t : Z) :
  pp_pageSize pp0 = JS.Int 0 ->
  pp_current pp0 = JS.Int c ->
  pp_total pp0 = JS.Int t -> 0 <= t ->
  slice_of (Some pg) (clampCurrent pp0) ds = [].
Proof.
  intros Hp Hc Ht Ht0.
  assert (Hclamp : clampCurrent pp0 = pp0).
  { unfold clampCurrent, largestPage. rewrite Hp, Ht, Hc. simpl.
    case_bool_decide; [reflexivity|].
    rewrite bool_decide_eq_false_2 by lia. reflexivity. }
  rewrite Hclamp. unfold slice_of, pageStart. rewrite Hp, Hc. simpl.
  rewrite Z.mul_0_r.
  case_bool_decide as E; [now apply splice_removed_none|].
  destruct ds; [done | simpl in E; lia].
Qed.

(** A page size that is [NaN] (an [undefined] page size): every comparison
    with the largest page or the start index fails. *)
Lemma slice_pageSize_nan (pg : Props.PaginationConfig) (pp0 : PaginationProps)
    (ds : list item) :
  pp_pageSize pp0 = JS.NaN ->
  slice_of (Some pg) (clampCurrent pp0) ds = ds.
Proof.
  intros Hp.
  assert (Hclamp : clampCurrent pp0 = pp0).
  { unfold clampCurrent, largestPage. rewrite Hp.
    destruct (pp_total pp0), (pp_current pp0); reflexivity. }
  rewrite Hclamp. unfold slice_of, pageStart. rewrite Hp.
  destruct (pp_current pp0); reflexivity.
Qed.

(** A negative page size, with the length of the data source as the total:
    the clamped page is at most [ceil(n / p) <= 0], and the start index is
    beyond the end of the array. *)
Lemma slice_pageSize_negative (pg : Props.PaginationConfig)
    (pp0 : PaginationProps) (ds : list item) (p : Z) :
  pp_pageSize pp0 = JS.Int p -> p < 0 ->
  pp_total pp0 = JS.Int (Z.of_nat (length ds)) ->
  slice_of (Some pg) (clampCurrent pp0) ds = ds.
Proof.
  intros Hp Hneg Ht.
  set (n := Z.of_nat (length ds)) in *.
  set (L := - ((- n) / p)).
  assert (HL : largestPage pp0 = JS.Int L).
  { unfold largestPage. rewrite Hp, Ht. simpl. destruct p; try lia. reflexivity. }
  assert (Hb : n < p * (L - 1)).
  { pose proof (Z.div_mod (- n) p ltac:(lia)) as Hd.
    pose proof (Z.mod_neg_bound (- n) p Hneg) as Hm. unfold L. nia. }
  unfold slice_of. fold n.
  assert (Hgt : JS.gt (JS.Int n) (pageStart (clampCurrent pp0)) = false).
  { unfold clampCurrent. rewrite HL. unfold pageStart.
    destruct (pp_current pp0) as [c| | |] eqn:Hc; simpl.
    - case_bool_decide as Hcl; simpl; rewrite ?Hc, Hp; simpl;
        apply bool_decide_eq_false; nia.
    - rewrite Hp. simpl. apply bool_decide_eq_false. nia.
    - rewrite Hc, Hp. simpl.
      rewrite (bool_decide_eq_true_2 (p < 0)) by lia.
      destruct p; try lia. reflexivity.
    - rewrite Hc. reflexivity. }
  now rewrite Hgt.
Qed.

(** A render whose items all render to elements has a body. *)
Lemma childrenContent_total props render re (split : list item) (w : world) :
  Props.renderItem props = Some render ->
  (forall x j, render x j <> NNull) ->
  exists content, childrenContent props re split w = Ok content w.
Proof.
  intros Hr Helem. destruct (decide (split = [])) as [->|Hne].
  - unfold childrenContent. simpl.
    destruct (_ && _); eexists; reflexivity.
  - destruct (childrenContent_elements props render re split w Hr
                (fun j x _ => Helem x j) Hne) as (cl & Hrun & _).
    eexists. exact Hrun.
Qed.

(** C8, as the code has it.  With pagination enabled and a [renderItem]
    that gives elements, the render succeeds whatever the page size, and its
    body is the body of the visible slice.  That slice is the whole data
    source when the page size is negative (and [total] is not overridden)
    or [NaN], as for an [undefined] page size; it is empty when the page
    size is 0 (with an integer current page and no [total] override):
    nothing of the data source is rendered then.  A falsy
    [defaultPageSize] is replaced by 10. *)
Theorem nonpositive_pageSize props (pg : Props.PaginationConfig) re render
    (w : world) (ds : list item) :
  source props w = Some ds ->
  Props.pagination props = Some pg ->
  Props.renderItem props = Some render ->
  (forall x j, render x j <> NNull) ->
  let size := default (shadowSize props w) (Props.pageSize pg) in
  let cur := default (shadowCurrent props w) (Props.current pg) in
  let slice := slice_of (Some pg) (effectiveProps props w ds) ds in
  exists (v : view) (w' : world),
    List props re w = Ok v w'
    /\ childrenContent props re slice w' = Ok (v_content v) w'
    /\ (size = JS.Int 0 -> Props.total pg = None ->
        (exists c, cur = JS.Int c) -> slice = [])
    /\ (size = JS.NaN -> slice = ds)
    /\ (forall p, size = JS.Int p -> p < 0 -> Props.total pg = None ->
        slice = ds)
    /\ match Props.defaultPageSize pg with
       | Some d => JS.truthy d = false -> seedSize props = JS.Int 10
       | None => seedSize props = JS.Int 10
       end.
Proof.
  intros Hs Hpg Hr Helem size cur slice.
  destruct (List_run props re w ds Hs) as [extra Hrun].
  rewrite Hpg in Hrun. fold slice in Hrun.
  destruct (childrenContent_total props render re slice
              (rendered props w extra) Hr Helem) as [content Hc].
  rewrite Hc in Hrun.
  exists (view_of props (effectiveProps props w ds) content),
         (rendered props w extra).
  split; [exact Hrun|]. split; [exact Hc|].
  unfold slice, effectiveProps. rewrite Hpg.
  set (pp0 := paginationProps (Some pg) (length ds) (shadowCurrent props w)
                (shadowSize props w)).
  assert (Hsize : pp_pageSize pp0 = size) by reflexivity.
  assert (Hcur : pp_current pp0 = cur) by reflexivity.
  assert (Htot : Props.total pg = None ->
                 pp_total pp0 = JS.Int (Z.of_nat (length ds))).
  { intros Ht. unfold pp0, paginationProps. simpl. now rewrite Ht. }
  split; [|split; [|split]].
  - intros H0 Ht [c Hc0].
    apply (slice_pageSize_zero pg pp0 ds c (Z.of_nat (length ds)));
      [congruence | congruence | auto | lia].
  - intros Hnan. apply slice_pageSize_nan. congruence.
  - intros p Hp Hneg Ht.
    apply (slice_pageSize_negative pg pp0 ds p); [congruence | done | auto].
  - unfold seedSize. rewrite Hpg. simpl.
    destruct (Props.defaultPageSize pg) as [d|]; [|reflexivity].
    intros Hd. simpl. now rewrite Hd.
Qed.

Lemma nonpositive_pageSize_witness :
  let ds := [entry "a"; entry "b"; entry "c"] in
  let props := propsOf (Some (paging None (Some (JS.Int (-1))))) (Some label) None in
  exists (v : view) (w' : world),
    List props emptyNode (unmounted ds) = Ok v w'
    /\ v_content v
       = BItems [NElem (Some "a") "a"; NElem (Some "b") "b"; NElem (Some "c") "c"].
Proof.
  intros ds props.
  destruct (nonpositive_pageSize props (paging None (Some (JS.Int (-1))))
              emptyNode label (unmounted ds) ds eq_refl eq_refl eq_refl
              ltac:(intros x j; unfold label; discriminate))
    as (v & w' & Hrun & Hbody & _ & _ & Hneg & _).
  exists v, w'. split; [exact Hrun|].
  rewrite (Hneg (-1) eq_refl ltac:(lia) eq_refl) in Hbody.
  vm_compute in Hbody. now inversion Hbody.
Defined.

(** C8, as the specification states it, fails for a page size of 0: three
    items under [{ pageSize: 0 }] render without an exception, but the body
    is the empty text and none of the items, whereas without pagination the
    body has the three items. *)
Lemma zero_pageSize_renders_nothing :
  let ds := [entry "a"; entry "b"; entry "c"] in
  exists v w' v0 w0,
    List (propsOf (Some (paging None (Some (JS.Int 0)))) (Some label) None)
      emptyNode (unmounted ds) = Ok v w'
    /\ v_content v = BEmpty (emptyNode "List")
    /\ List (propsOf None (Some label) None) emptyNode (unmounted ds) = Ok v0 w0
    /\ v_content v0
       = BItems [NElem (Some "a") "a"; NElem (Some "b") "b"; NElem (Some "c") "c"]
    /\ v_content v <> v_content v0.
Proof.
  eexists _, _, _, _.
  split; [vm_compute; reflexivity|]. split; [reflexivity|].
  split; [vm_compute; reflexivity|]. split; [reflexivity|]. discriminate.
Qed.

(** ** A session *)

(** The example of the specification: three items under [{ pageSize: 2 }].
    The first render shows [a] and [b]; after the change event for page 2
    the next render shows [c]; when the data source then shrinks to one
    item, the next render clamps the current page of the pagination props to
    1 while the cell still holds 2. *)
Example paging_session :
  let props := propsOf (Some (paging None (Some (JS.Int 2)))) (Some label) None in
  let ds := [entry "a"; entry "b"; entry "c"] in
  exists v1 w1 w2 v3 w3 v4 w4,
    List props emptyNode (unmounted ds) = Ok v1 w1
    /\ v_content v1 = BItems [NElem (Some "a") "a"; NElem (Some "b") "b"]
    /\ onPaginationChange (Props.pagination props) (JS.Int 2) (JS.Int 2) w1
       = Ok tt w2
    /\ List props emptyNode w2 = Ok v3 w3
    /\ v_content v3 = BItems [NElem (Some "c") "c"]
    /\ List props emptyNode (set_heap [[entry "a"]] w3) = Ok v4 w4
    /\ v_content v4 = BItems [NElem (Some "a") "a"]
    /\ (pp_current <$> match v_tail v4 with
                        | TailPagination pp => Some pp
                        | _ => None
                        end) = Some (JS.Int 1)
    /\ paginationCurrent w4 = Some (JS.Int 2).
Proof.
  eexists _, _, _, _, _, _, _.
  split; [vm_compute; reflexivity|]. split; [reflexivity|].
  split; [vm_compute; reflexivity|].
  split; [vm_compute; reflexivity|]. split; [reflexivity|].
  split; [vm_compute; reflexivity|]. split; [reflexivity|].
  split; reflexivity.
Qed.

(** * Further properties of the list *)

(** ** Pages *)

Lemma pageSlice_slice_of pagination (pp : PaginationProps) (ds : list item) :
  pageSlice pagination pp ds = Some (slice_of pagination pp ds).
Proof.
  unfold pageSlice.
  destruct (splitDataSource_run pagination pp 0%nat ds (unmounted ds) eq_refl)
    as (l' & extra & -> & Hl).
  exact Hl.
Qed.

(** X3. The clamp is idempotent: clamping props that were clamped changes
    nothing, for every total, page size and current page, the special
    numbers included. *)
Theorem clampCurrent_idempotent (pp : PaginationProps) :
  clampCurrent (clampCurrent pp) = clampCurrent pp.
Proof.
  unfold clampCurrent at 2 3.
  destruct (JS.gt (pp_current pp) (largestPage pp)) eqn:E; [|
    unfold clampCurrent; now rewrite E].
  unfold clampCurrent, largestPage. simpl.
  destruct (JS.ceil_div (pp_total pp) (pp_pageSize pp)) as [z| | |]; simpl;
    [rewrite bool_decide_eq_false_2 by lia|..]; reflexivity.
Qed.

(** With a positive page size and a total that is not negative, the start
    index of the clamped page is below the total, unless the current page is
    [NaN]. *)
Lemma start_below_total (pp0 : PaginationProps) (n p : Z) :
  pp_total pp0 = JS.Int n -> 0 <= n ->
  pp_pageSize pp0 = JS.Int p -> 0 < p ->
  pp_current pp0 <> JS.NaN ->
  JS.gt (JS.Int n) (pageStart (clampCurrent pp0)) = true.
Proof.
  intros Ht Hn Hp Hpos Hc.
  pose proof (ceil_bracket n p Hpos) as Hb.
  set (L := - ((- n) / p)) in *.
  assert (HL : largestPage pp0 = JS.Int L).
  { unfold largestPage. rewrite Ht, Hp. simpl. destruct p; try lia. reflexivity. }
  unfold clampCurrent. rewrite HL. unfold pageStart.
  destruct (pp_current pp0) as [c| | |] eqn:Ec; simpl; [| | |done].
  - case_bool_decide; simpl; rewrite ?Ec, Hp; simpl;
      apply bool_decide_eq_true; nia.
  - rewrite Hp. simpl. apply bool_decide_eq_true. nia.
  - rewrite Ec, Hp. simpl. destruct p; try lia. reflexivity.
Qed.

(** What [splice] returns for a start index below the length and a positive
    count: at least one element, and at most the count. *)
Lemma splice_removed_bounds {A} (l : list A) (start : JS.num) (p : Z) :
  JS.gt (JS.Int (Z.of_nat (length l))) start = true ->
  0 < p -> l <> [] ->
  1 <= Z.of_nat (length (splice_removed l start (JS.Int p))) <= p.
Proof.
  intros Hgt Hp Hne.
  assert (Hlen : (0 < length l)%nat) by (destruct l; simpl; [done|lia]).
  unfold splice_removed, splice_start, splice_count.
  rewrite length_take, length_drop.
  destruct start as [s| | |]; simpl in Hgt; try done.
  - apply bool_decide_eq_true in Hgt. case_bool_decide; lia.
  - lia.
Qed.

(** X1. With pagination enabled, a positive integer page size [p], no
    [total] override, a current page that is not [NaN] and a data source
    that is not empty, a render that succeeds shows at least one item and at
    most [p] items: the clamp never leaves an empty page, and the fallback
    to the whole data source is not taken. *)
Theorem page_has_one_to_p_items props (pg : Props.PaginationConfig) re
    (w : world) (ds : list item) (p : Z) (v : view) (w' : world) :
  source props w = Some ds ->
  Props.pagination props = Some pg ->
  Props.total pg = None ->
  default (shadowSize props w) (Props.pageSize pg) = JS.Int p -> 0 < p ->
  default (shadowCurrent props w) (Props.current pg) <> JS.NaN ->
  ds <> [] ->
  List props re w = Ok v w' ->
  exists cl, body_items (v_content v) = Some cl
             /\ 1 <= Z.of_nat (length cl) <= p.
Proof.
  intros Hs Hpg Ht Hp Hpos Hc Hne Hrun.
  destruct (List_run props re w ds Hs) as [extra Hl]. rewrite Hl in Hrun.
  set (slice := slice_of (Props.pagination props) (effectiveProps props w ds) ds)
    in *.
  assert (Hslice : 1 <= Z.of_nat (length slice) <= p).
  { unfold slice, effectiveProps, slice_of. rewrite Hpg.
    set (pp0 := paginationProps (Some pg) (length ds) (shadowCurrent props w)
                  (shadowSize props w)).
    assert (Hgt : JS.gt (JS.Int (Z.of_nat (length ds)))
                    (pageStart (clampCurrent pp0)) = true).
    { apply (start_below_total pp0 (Z.of_nat (length ds)) p); try done; try lia.
      unfold pp0, paginationProps. simpl. now rewrite Ht. }
    rewrite Hgt, clampCurrent_pageSize.
    change (pp_pageSize pp0) with (default (shadowSize props w) (Props.pageSize pg)).
    rewrite Hp. now apply splice_removed_bounds. }
  destruct (childrenContent props re slice (rendered props w extra))
    as [content w0|] eqn:Hc0; [|discriminate Hrun].
  inversion Hrun; subst v w'. simpl.
  assert (Hsne : slice <> []) by (intros E; rewrite E in Hslice; simpl in Hslice; lia).
  destruct (childrenContent_items props re slice _ _ content Hsne Hc0)
    as (cl & Hlen & ->).
  exists cl. split; [now destruct (Props.grid props)|]. now rewrite Hlen.
Qed.

Lemma page_has_one_to_p_items_witness :
  let ds := [entry "a"; entry "b"; entry "c"] in
  let props := propsOf (Some (paging (Some (JS.Int 7)) (Some (JS.Int 2))))
                 (Some label) None in
  exists v w' cl,
    List props emptyNode (unmounted ds) = Ok v w'
    /\ body_items (v_content v) = Some cl
    /\ 1 <= Z.of_nat (length cl) <= 2.
Proof.
  intros ds props.
  assert (Hrun : exists v w', List props emptyNode (unmounted ds) = Ok v w')
    by (eexists _, _; vm_compute; reflexivity).
  destruct Hrun as (v & w' & Hrun).
  destruct (page_has_one_to_p_items props
              (paging (Some (JS.Int 7)) (Some (JS.Int 2))) emptyNode
              (unmounted ds) ds 2 v w' eq_refl eq_refl eq_refl eq_refl
              eq_refl ltac:(discriminate) ltac:(discriminate) Hrun)
    as (cl & Hcl & Hb).
  exists v, w', cl. split; [exact Hrun|]. split; [exact Hcl | exact Hb].
Defined.

Lemma fmap_seq_ext {A} (f g : nat -> A) (k : nat) :
  (forall i, (i < k)%nat -> f i = g i) -> f <$> seq 0 k = g <$> seq 0 k.
Proof.
  induction k as [|k IH]; intros H; [reflexivity|].
  rewrite seq_S, !fmap_app. simpl. rewrite IH by (intros i Hi; apply H; lia).
  now rewrite H by lia.
Qed.

(** The first [k] chunks of [p] elements make up the first [k * p]
    elements. *)
Lemma concat_chunks {A} (l : list A) (p k : nat) :
  concat ((fun i => take p (drop (i * p) l)) <$> seq 0 k) = take (k * p) l.
Proof.
  induction k as [|k IH]; [reflexivity|].
  rewrite seq_S, fmap_app, concat_app, IH. simpl. rewrite app_nil_r.
  rewrite take_take_drop. f_equal. lia.
Qed.

(** The slice of a page between 1 and the largest page: the clamp leaves
    the page as it is, and the slice is the chunk of the page. *)
Lemma page_chunk (pg : Props.PaginationConfig) (ds : list item) (p : Z) (i : nat) :
  0 < p ->
  Z.of_nat (S i) <= - ((- Z.of_nat (length ds)) / p) ->
  slice_of (Some pg) (clampCurrent (pageProps (length ds) p (Z.of_nat (S i)))) ds
  = take (Z.to_nat p) (drop (i * Z.to_nat p) ds).
Proof.
  intros Hp Hi.
  pose proof (ceil_bracket (Z.of_nat (length ds)) p Hp) as Hb.
  set (L := - ((- Z.of_nat (length ds)) / p)) in *.
  set (pp := pageProps (length ds) p (Z.of_nat (S i))).
  assert (Hclamp : clampCurrent pp = pp).
  { unfold clampCurrent, largestPage, pp, pageProps. simpl.
    destruct p as [|p'|]; try lia. fold L.
    simpl. now rewrite bool_decide_eq_false_2 by lia. }
  rewrite Hclamp.
  pose proof (slice_of_window pg pp ds p (Z.of_nat (S i)) eq_refl eq_refl
                ltac:(lia) ltac:(lia)) as Hw.
  unfold window_as_specified in Hw.
  rewrite bool_decide_eq_true_2 in Hw by nia.
  destruct Hw as [Hw _]. rewrite Hw.
  replace (Z.to_nat ((Z.of_nat (S i) - 1) * p)) with (i * Z.to_nat p)%nat by nia.
  set (rest := drop (i * Z.to_nat p) ds).
  assert (Hrest : Z.of_nat (length rest)
                  = Z.of_nat (length ds) - (Z.of_nat (S i) - 1) * p).
  { unfold rest. rewrite length_drop. nia. }
  rewrite <- Hrest.
  destruct (decide (p <= Z.of_nat (length rest))).
  - now replace (Z.min p (Z.of_nat (length rest))) with p by lia.
  - replace (Z.min p (Z.of_nat (length rest))) with (Z.of_nat (length rest)) by lia.
    rewrite Nat2Z.id, !take_ge by lia. reflexivity.
Qed.

(** X2. With a positive integer page size [p], the slices of the pages
    [1 .. ceil(n / p)] are what [splitDataSource] returns for them, each has
    at least one and at most [p] items, and one after the other they make up
    the data source: every item is on exactly one page, in order. *)
Theorem pages_partition (pg : Props.PaginationConfig) (ds : list item) (p : Z) :
  0 < p ->
  let L := Z.to_nat (- ((- Z.of_nat (length ds)) / p)) in
  exists chunks : list (list item),
    (fun c => pageSlice (Some pg) (clampCurrent (pageProps (length ds) p c)) ds)
      <$> pages L
    = Some <$> chunks
    /\ concat chunks = ds
    /\ Forall (fun s => 1 <= Z.of_nat (length s) <= p) chunks.
Proof.
  intros Hp L.
  pose proof (ceil_bracket (Z.of_nat (length ds)) p Hp) as Hb.
  exists ((fun i => take (Z.to_nat p) (drop (i * Z.to_nat p) ds)) <$> seq 0 L).
  split; [|split].
  - unfold pages. rewrite <- !list_fmap_compose. apply fmap_seq_ext.
    intros i Hi. simpl. rewrite pageSlice_slice_of. f_equal.
    apply page_chunk; [done | lia].
  - rewrite concat_chunks. apply take_ge. nia.
  - apply Forall_fmap, Forall_forall. intros i Hi.
    apply elem_of_seq in Hi. simpl.
    rewrite length_take, length_drop. nia.
Qed.

Lemma pages_partition_witness :
  exists chunks : list (list item),
    (fun c => pageSlice (Some (paging None None))
                (clampCurrent (pageProps 3 2 c))
                [entry "a"; entry "b"; entry "c"]) <$> pages 2
    = Some <$> chunks
    /\ concat chunks = [entry "a"; entry "b"; entry "c"]
    /\ Forall (fun s => 1 <= Z.of_nat (length s) <= 2) chunks.
Proof.
  exact (pages_partition (paging None None)
           [entry "a"; entry "b"; entry "c"] 2 eq_refl).
Defined.

(** ** The tree of a render *)

(** The tree of a render, from the body of the slice computed in any
    world. *)
Lemma List_view props re (w w0 : world) (ds : list item) :
  source props w = Some ds ->
  view_of_result (List props re w)
  = match childrenContent props re
            (slice_of (Props.pagination props) (effectiveProps props w ds) ds)
            w0 with
    | Ok content _ => Some (view_of props (effectiveProps props w ds) content)
    | Throw _ _ => None
    end.
Proof.
  intros Hs. destruct (List_run props re w ds Hs) as [extra ->].
  rewrite (childrenContent_in_world props re _ (rendered props w extra) w0).
  now destruct (childrenContent _ _ _ w0).
Qed.

Lemma List_Ok_view props re (w w' : world) (v : view) :
  List props re w = Ok v w' ->
  exists ds content,
    source props w = Some ds
    /\ childrenContent props re
         (slice_of (Props.pagination props) (effectiveProps props w ds) ds) w'
       = Ok content w'
    /\ v = view_of props (effectiveProps props w ds) content.
Proof.
  intros Hrun. destruct (source props w) as [ds|] eqn:Hs.
  - exists ds. destruct (List_run props re w ds Hs) as [extra Hl].
    rewrite Hl in Hrun.
    pose proof (childrenContent_final props re
      (slice_of (Props.pagination props) (effectiveProps props w ds) ds)
      (rendered props w extra)) as Hf.
    destruct (childrenContent _ _ _ _) as [content w0|] eqn:Hc;
      [|discriminate Hrun].
    simpl in Hf. subst w0.
    inversion Hrun; subst. now exists content.
  - rewrite (List_dangling props re w Hs) in Hrun. discriminate Hrun.
Qed.

(** X4. Controlled pagination: when the pagination props supply both
    [current] and [pageSize], the tree that a render returns does not depend
    on the shadow cells.  Two worlds with the same arrays give the same
    tree, or both give none. *)
Theorem controlled_render_ignores_cells props (pg : Props.PaginationConfig) re
    (w w2 : world) (c p : JS.num) :
  Props.pagination props = Some pg ->
  Props.current pg = Some c ->
  Props.pageSize pg = Some p ->
  heap w2 = heap w ->
  view_of_result (List props re w2) = view_of_result (List props re w).
Proof.
  intros Hpg Hc Hp Hh.
  assert (Hsrc : source props w2 = source props w)
    by (unfold source; now rewrite Hh).
  destruct (source props w) as [ds|] eqn:Hs.
  - rewrite (List_view props re w2 w ds Hsrc), (List_view props re w w ds Hs).
    assert (He : effectiveProps props w2 ds = effectiveProps props w ds).
    { unfold effectiveProps, paginationProps. rewrite Hpg. simpl.
      now rewrite Hc, Hp. }
    now rewrite He.
  - now rewrite (List_dangling props re w2 Hsrc), (List_dangling props re w Hs).
Qed.

Lemma controlled_render_ignores_cells_witness :
  let props := propsOf (Some (paging (Some (JS.Int 2)) (Some (JS.Int 1))))
                 (Some label) None in
  let w := unmounted [entry "a"; entry "b"] in
  view_of_result (List props emptyNode
                    (set_size (Some (JS.Int 50)) (set_current (Some (JS.Int 9)) w)))
  = view_of_result (List props emptyNode w).
Proof.
  exact (controlled_render_ignores_cells
           (propsOf (Some (paging (Some (JS.Int 2)) (Some (JS.Int 1))))
              (Some label) None)
           (paging (Some (JS.Int 2)) (Some (JS.Int 1))) emptyNode
           (unmounted [entry "a"; entry "b"])
           (set_size (Some (JS.Int 50))
              (set_current (Some (JS.Int 9)) (unmounted [entry "a"; entry "b"])))
           (JS.Int 2) (JS.Int 1) eq_refl eq_refl eq_refl eq_refl).
Defined.

Lemma clampCurrent_largestPage (pp : PaginationProps) :
  largestPage (clampCurrent pp) = largestPage pp.
Proof. unfold clampCurrent. now destruct (JS.gt _ _). Qed.

Lemma pagination_event_final (pagination : option Props.PaginationConfig)
    (ev : eventName) (page size : JS.num) (w : world) :
  final (triggerPaginationEvent pagination ev page size w)
  = after_event pagination ev page size w.
Proof.
  unfold triggerPaginationEvent, mbind, M_bind, setPaginationCurrent,
    setPaginationSize, after_event. simpl.
  destruct pagination as [p|]; [destruct (handler_of ev p)|];
    unfold invoke, add_call, mret, M_ret, set_size, set_current; simpl;
    rewrite ?app_nil_r; reflexivity.
Qed.

(** X5. Uncontrolled pagination: when the pagination props supply neither
    [current] nor [pageSize], the render after a change event with
    [(page, pageSize)] uses these two values: the pagination control that it
    shows gets [page], clamped to the largest page, and [pageSize], and the
    body is the body of the slice of that page. *)
Theorem event_then_render props (pg : Props.PaginationConfig) re
    (ev : eventName) (page size : JS.num) (w : world) (ds : list item)
    (v : view) (w2 : world) :
  Props.pagination props = Some pg ->
  Props.current pg = None ->
  Props.pageSize pg = None ->
  source props w = Some ds ->
  List props re (final (triggerPaginationEvent (Some pg) ev page size w))
  = Ok v w2 ->
  let pp := clampCurrent (paginationProps (Some pg) (length ds) page size) in
  pp_pageSize pp = size
  /\ pp_current pp = (if JS.gt page (largestPage pp) then largestPage pp else page)
  /\ (forall shown, shown_control v = Some shown -> shown = pp)
  /\ childrenContent props re (slice_of (Some pg) pp ds) w2 = Ok (v_content v) w2.
Proof.
  intros Hpg Hc Hp Hs Hrun pp.
  rewrite pagination_event_final in Hrun.
  set (w1 := after_event (Some pg) ev page size w) in *.
  assert (Hs1 : source props w1 = Some ds) by exact Hs.
  destruct (List_Ok_view props re w1 w2 v Hrun) as (ds' & content & Hs' & Hbody & ->).
  rewrite Hs1 in Hs'. inversion Hs'; subst ds'.
  assert (He : effectiveProps props w1 ds = pp).
  { unfold effectiveProps, pp. rewrite Hpg. reflexivity. }
  rewrite He, Hpg in Hbody.
  assert (Hsz : pp_pageSize pp = size).
  { unfold pp. rewrite clampCurrent_pageSize. simpl. now rewrite Hp. }
  assert (Hcur : pp_current (paginationProps (Some pg) (length ds) page size) = page).
  { simpl. now rewrite Hc. }
  split; [exact Hsz|]. split; [|split; [|exact Hbody]].
  - unfold pp. rewrite clampCurrent_largestPage.
    unfold clampCurrent. rewrite Hcur. now destruct (JS.gt _ _).
  - intros shown. rewrite He. unfold shown_control, view_of. simpl. rewrite Hpg.
    destruct (position_is pp ["top"; "both"]%string); [now intros [= <-]|].
    destruct (present (Props.loadMore props)); [discriminate|].
    destruct (position_is pp ["bottom"; "both"]%string); [|discriminate].
    simpl. now intros [= <-].
Qed.

Lemma event_then_render_witness :
  let pg := paging None None in
  let props := propsOf (Some pg) (Some label) None in
  let ds := [entry "a"; entry "b"; entry "c"] in
  exists v w2,
    List props emptyNode
      (final (triggerPaginationEvent (Some pg) EvChange (JS.Int 2) (JS.Int 2)
                (unmounted ds))) = Ok v w2
    /\ shown_control v
       = Some (clampCurrent (paginationProps (Some pg) 3 (JS.Int 2) (JS.Int 2)))
    /\ v_content v = BItems [NElem (Some "c") "c"].
Proof.
  intros pg props ds.
  assert (Hrun : exists v w2,
    List props emptyNode
      (final (triggerPaginationEvent (Some pg) EvChange (JS.Int 2) (JS.Int 2)
                (unmounted ds))) = Ok v w2)
    by (eexists _, _; vm_compute; reflexivity).
  destruct Hrun as (v & w2 & Hrun). exists v, w2. split; [exact Hrun|].
  destruct (event_then_render props pg emptyNode EvChange (JS.Int 2) (JS.Int 2)
              (unmounted ds) ds v w2 eq_refl eq_refl eq_refl eq_refl Hrun)
    as (_ & _ & Hshown & Hbody).
  split.
  - destruct (shown_control v) as [shown|] eqn:E.
    + now rewrite (Hshown shown eq_refl).
    + exfalso. clear Hshown Hbody. vm_compute in Hrun.
      inversion Hrun; subst v. discriminate E.
  - vm_compute in Hbody. now inversion Hbody.
Defined.



(** The initial values do reach the control: on the mounted component of
    the example above the control is handed page 2 of size 1 over 2 items,
    and with them the initial values as they were given. *)
Example defaults_reach_control :
  let w := set_size (Some (JS.Int 1))
             (set_current (Some (JS.Int 2)) (unmounted [entry "a"; entry "b"])) in
  let given := with_pagination
                 (Some (with_defaults (Some (JS.Int 1)) (Some (JS.Int 10))
                          (paging None None)))
                 (propsOf None (Some label) None) in
  (view_of_result (List given emptyNode w) ≫= control_of given)
  = Some {| cp_computed := {| pp_current := JS.Int 2; pp_total := JS.Int 2;
                              pp_pageSize := JS.Int 1; pp_position := None |};
            cp_defaultCurrent := Some (JS.Int 1);
            cp_defaultPageSize := Some (JS.Int 10) |}.
Proof. reflexivity. Qed.

(** X7. Rendering is stable: a second render with the same props, in the
    world that the first render left, returns the same tree as the first
    (or fails as the first did).  Creating the cells and allocating arrays
    does not change what is shown. *)
Theorem rerender_is_stable props re (w : world) (ds : list item) :
  source props w = Some ds ->
  view_of_result (List props re (final (List props re w)))
  = view_of_result (List props re w).
Proof.
  intros Hs.
  rewrite (List_view props re w w ds Hs).
  destruct (List_run props re w ds Hs) as [extra Hl].
  assert (Hf : final (List props re w) = rendered props w extra).
  { rewrite Hl. now destruct (childrenContent _ _ _ _). }
  rewrite Hf.
  assert (Hs' : source props (rendered props w extra) = Some ds).
  { unfold source in *. simpl. destruct (Props.dataSource props) as [l|]; [|done].
    rewrite lookup_app_l; [done|]. now apply lookup_lt_Some in Hs. }
  rewrite (List_view props re (rendered props w extra) w ds Hs').
  reflexivity.
Qed.

Lemma rerender_is_stable_witness :
  let props := propsOf (Some (paging None (Some (JS.Int 2)))) (Some label) None in
  let w := unmounted [entry "a"; entry "b"; entry "c"] in
  view_of_result (List props emptyNode (final (List props emptyNode w)))
  = view_of_result (List props emptyNode w).
Proof.
  exact (rerender_is_stable
           (propsOf (Some (paging None (Some (JS.Int 2)))) (Some label) None)
           emptyNode (unmounted [entry "a"; entry "b"; entry "c"])
           [entry "a"; entry "b"; entry "c"] eq_refl).
Defined.

(** ** Where the pagination control is *)

Lemma clampCurrent_position (pp : PaginationProps) :
  pp_position (clampCurrent pp) = pp_position pp.
Proof. unfold clampCurrent. now destruct (JS.gt _ _). Qed.

(** X8. In a render that succeeds: without pagination no control is
    shown; with pagination the control is at the top exactly for the
    positions ['top'] and ['both'], and after the footer exactly when no
    [loadMore] node is given and the position is ['bottom'], ['both'], empty
    or absent.  A [loadMore] node always takes the place after the footer,
    and any other position shows no control at all. *)
Theorem pagination_placement props re (w w' : world) (v : view) :
  List props re w = Ok v w' ->
  (present (Props.loadMore props) = true ->
   v_tail v = TailLoadMore (Props.loadMore props))
  /\ match Props.pagination props with
     | None => shown_control v = None
     | Some pg =>
         (is_Some (v_top v)
          <-> positionOf pg = "top"%string \/ positionOf pg = "both"%string)
         /\ ((exists pp, v_tail v = TailPagination pp)
             <-> present (Props.loadMore props) = false
                 /\ (positionOf pg = "bottom"%string
                     \/ positionOf pg = "both"%string))
     end.
Proof.
  intros Hrun.
  destruct (List_Ok_view props re w w' v Hrun) as (ds & content & Hs & _ & ->).
  unfold shown_control, view_of. simpl. split.
  - now intros ->.
  - destruct (Props.pagination props) as [pg|] eqn:Hpg.
    + assert (Hpos : forall names,
        position_is (effectiveProps props w ds) names
        = bool_decide (positionOf pg ∈ names)).
      { intros names. unfold position_is, effectiveProps, positionOf.
        rewrite clampCurrent_position, Hpg. reflexivity. }
      assert (Hin : forall a b : string,
        positionOf pg ∈ [a; b] <-> positionOf pg = a \/ positionOf pg = b).
      { intros a b. rewrite !elem_of_cons, elem_of_nil. tauto. }
      rewrite !Hpos. split.
      * case_bool_decide as E; rewrite Hin in E; split.
        -- intros _. exact E.
        -- intros _. eauto.
        -- intros [x Hx]. discriminate Hx.
        -- intros H. now exfalso.
      * destruct (present (Props.loadMore props)).
        { split; [intros [pp Hpp]; discriminate Hpp | intros [H _]; discriminate H]. }
        case_bool_decide as E; rewrite Hin in E; simpl; split.
        -- intros _. now split.
        -- intros _. eauto.
        -- intros [pp Hpp]. discriminate Hpp.
        -- intros [_ H]. now exfalso.
    + destruct (position_is _ ["top"; "both"]%string);
        destruct (present (Props.loadMore props)); try reflexivity;
        now destruct (position_is _ _).
Qed.

Lemma pagination_placement_witness :
  let props := propsOf (Some (paging None (Some (JS.Int 2)))) (Some label) None in
  exists v w',
    List props emptyNode (unmounted [entry "a"]) = Ok v w'
    /\ ~ is_Some (v_top v)
    /\ exists pp, v_tail v = TailPagination pp.
Proof.
  intros props.
  assert (Hrun : exists v w', List props emptyNode (unmounted [entry "a"]) = Ok v w')
    by (eexists _, _; vm_compute; reflexivity).
  destruct Hrun as (v & w' & Hrun). exists v, w'. split; [exact Hrun|].
  destruct (pagination_placement props emptyNode (unmounted [entry "a"]) w' v Hrun)
    as [_ [Htop Htail]].
  split.
  - intros H. apply Htop in H. destruct H as [H|H]; discriminate H.
  - apply Htail. split; [reflexivity | left; reflexivity].
Defined.

(** ** An empty data source *)

(** X9. An empty data source renders without an exception, with any
    pagination configuration and also without a [renderItem] prop.  The body
    is the placeholder while loading; otherwise nothing when the caller gave
    children; otherwise the empty text, which is [locale.emptyText] when the
    locale prop has one and [renderEmpty('List')] of the context when it has
    not.  The children are in the tree in every case. *)
Theorem empty_source_body props re (w : world) :
  source props w = Some [] ->
  exists (v : view) (w' : world),
    List props re w = Ok v w'
    /\ v_children v = Props.children props
    /\ v_content v
       = (if isLoading (Props.loading props) then BPlaceholder
          else if present (Props.children props) then BNothing
          else BEmpty (match Props.locale props with
                       | Some l =>
                           if present (Props.emptyText l)
                           then Props.emptyText l
                           else re "List"
                       | None => re "List"
                       end)).
Proof.
  intros Hs. destruct (List_run props re w [] Hs) as [extra Hl].
  rewrite slice_of_nil in Hl. rewrite Hl.
  unfold childrenContent, renderEmptyFunc. simpl.
  destruct (isLoading (Props.loading props)); simpl.
  - rewrite andb_false_r. eexists _, _. split; [reflexivity|]. now split.
  - rewrite andb_true_r.
    destruct (present (Props.children props)); simpl;
      [eexists _, _; split; [reflexivity|]; now split|].
    destruct (Props.locale props) as [l|];
      [destruct (present (Props.emptyText l))|];
      (eexists _, _; split; [reflexivity|]; now split).
Qed.

Lemma empty_source_body_witness :
  exists (v : view) (w' : world),
    List (propsOf (Some (paging (Some (JS.Int 3)) (Some (JS.Int 0)))) None None)
      emptyNode (unmounted []) = Ok v w'
    /\ v_children v = NNull
    /\ v_content v = BEmpty (emptyNode "List").
Proof.
  exact (empty_source_body
           (propsOf (Some (paging (Some (JS.Int 3)) (Some (JS.Int 0)))) None None)
           emptyNode (unmounted []) eq_refl).
Defined.

(** ** Rendering the items *)

(** X10. Without pagination the whole data source is rendered, whatever the
    shadow cells hold: when every item renders to an element, the body has
    one node per item of the data source, in the order of the data source,
    each with the content that [renderItem(item, index)] gave for its index
    in the data source, and no pagination control is shown. *)
Theorem unpaginated_list_renders_all props render re (w : world) (ds : list item) :
  source props w = Some ds ->
  Props.pagination props = None ->
  Props.renderItem props = Some render ->
  (forall x j, render x j <> NNull) ->
  ds <> [] ->
  exists (v : view) (w' : world) (cl : list node),
    List props re w = Ok v w'
    /\ body_items (v_content v) = Some cl
    /\ length cl = length ds
    /\ (forall i it, ds !! i = Some it ->
          node_content <$> cl !! i = Some (node_content (render it i)))
    /\ shown_control v = None.
Proof.
  intros Hs Hpg Hr Helem Hne.
  destruct (List_run props re w ds Hs) as [extra Hl].
  rewrite Hpg in Hl. simpl in Hl.
  destruct (childrenContent_elements props render re ds (rendered props w extra)
              Hr (fun j x _ => Helem x j) Hne) as (cl & Hc & Hlen & Hcl).
  rewrite Hc in Hl. eexists _, _, cl. split; [exact Hl|].
  split; [simpl; now destruct (Props.grid props)|]. split; [exact Hlen|]. split.
  - intros i it Hi.
    destruct (render it i) as [|k0 c] eqn:Er; [now apply Helem in Er|].
    now rewrite (Hcl i it k0 c Hi Er).
  - unfold shown_control, view_of. simpl. rewrite Hpg.
    destruct (position_is _ ["top"; "both"]%string);
      destruct (present (Props.loadMore props)); try reflexivity;
      now destruct (position_is _ _).
Qed.

Lemma unpaginated_list_renders_all_witness :
  let ds := [entry "a"; entry "b"] in
  exists (v : view) (w' : world) (cl : list node),
    List (propsOf None (Some label) None) emptyNode
      (set_current (Some (JS.Int 9)) (unmounted ds)) = Ok v w'
    /\ body_items (v_content v) = Some cl
    /\ length cl = 2%nat
    /\ (forall i it, ds !! i = Some it ->
          node_content <$> cl !! i = Some (node_content (label it i)))
    /\ shown_control v = None.
Proof.
  exact (unpaginated_list_renders_all (propsOf None (Some label) None) label
           emptyNode (set_current (Some (JS.Int 9))
                        (unmounted [entry "a"; entry "b"]))
           [entry "a"; entry "b"] eq_refl eq_refl eq_refl
           (fun x j (H : label x j = NNull) =>
              match H in _ = n return match n with NNull => False | _ => True end
              with eq_refl => I end)
           (fun H : [entry "a"; entry "b"] = [] =>
              match H in _ = l return match l with [] => False | _ => True end
              with eq_refl => I end)).
Defined.

(** X11. Synthetic keys do not collide: when [rowKey] is absent and no item
    of the slice has a truthy [key] field, the clones of a body carry keys
    that are pairwise different. *)
Theorem synthetic_keys_distinct props render re (split : list item)
    (w w' : world) (content : body) (cl : list node) :
  Props.renderItem props = Some render ->
  Props.rowKey props = None ->
  (forall j x, split !! j = Some x ->
     render x j <> NNull /\ truthy (get_field x "key") = false) ->
  childrenContent props re split w = Ok content w' ->
  body_items content = Some cl ->
  NoDup (node_key <$> cl).
Proof.
  intros Hr Hk Hitems Hrun Hcl.
  destruct (decide (split = [])) as [->|Hne].
  { unfold childrenContent in Hrun. simpl in Hrun.
    destruct (_ && _); [unfold renderEmptyFunc in Hrun;
      destruct (Props.locale props) as [l|]; [destruct (present _)|]|
      destruct (isLoading _)];
      inversion Hrun; subst content; discriminate Hcl. }
  destruct (childrenContent_elements props render re split w Hr
              (fun j x Hj => proj1 (Hitems j x Hj)) Hne)
    as (cl0 & Hc & Hlen & Hkeys).
  rewrite Hc in Hrun. inversion Hrun; subst content w'.
  assert (cl0 = cl) by (destruct (Props.grid props); now inversion Hcl).
  subst cl0.
  assert (Hkey : forall i n, cl !! i = Some n ->
            node_key n = Some ("list-item-" +:+ pretty i)).
  { intros i n Hi.
    destruct (split !! i) as [it|] eqn:Ei.
    - destruct (Hitems i it Ei) as [Hnn Hfalsy].
      destruct (render it i) as [|k0 c] eqn:Er; [done|].
      rewrite (Hkeys i it k0 c Ei Er) in Hi. inversion Hi; subst n. simpl.
      unfold itemKey. now rewrite Hk, Hfalsy.
    - apply lookup_ge_None in Ei. apply lookup_lt_Some in Hi. lia. }
  apply NoDup_alt. intros i j k Hi Hj.
  rewrite list_lookup_fmap in Hi, Hj.
  destruct (cl !! i) as [ni|] eqn:Ei; [|discriminate Hi].
  destruct (cl !! j) as [nj|] eqn:Ej; [|discriminate Hj].
  simpl in Hi, Hj. inversion Hi as [Hi']. inversion Hj as [Hj'].
  rewrite (Hkey i ni Ei) in Hi'. rewrite (Hkey j nj Ej) in Hj'.
  rewrite <- Hj' in Hi'. inversion Hi' as [Hp].
  exact (pretty_nat_inj i j Hp).
Qed.

Lemma synthetic_keys_distinct_witness :
  NoDup (node_key <$> [NElem (Some "list-item-0") "undefined";
                       NElem (Some "list-item-1") "undefined"]).
Proof.
  apply (synthetic_keys_distinct (propsOf None (Some label) None) label emptyNode
           [∅; ∅] (unmounted []) (unmounted [])
           (BItems [NElem (Some "list-item-0") "undefined";
                    NElem (Some "list-item-1") "undefined"])).
  - reflexivity.
  - reflexivity.
  - intros j x Hj. split; [unfold label; discriminate|].
    destruct j as [|[|j]]; simpl in Hj; inversion Hj; reflexivity.
  - reflexivity.
  - reflexivity.
Defined.

Lemma forEach_null_at (keys : keymap) (items : list node) (i j : nat)
    (acc : list node) (w : world) :
  items !! j = Some NNull ->
  forEach (pushClone keys) items i acc w = Throw CloneElementOfNull w.
Proof.
  revert i j acc. induction items as [|n items IH]; intros i j acc Hj.
  { now rewrite lookup_nil in Hj. }
  destruct n as [|k0 c]; [reflexivity|].
  destruct j as [|j]; [discriminate Hj|]. simpl in Hj.
  rewrite forEach_cons.
  rewrite (bind_Ok _ _ _ _ _ (pushClone_element keys k0 c i acc w)).
  exact (IH (S i) j _ Hj).
Qed.

(** X12. One item without a node stops the render: when the [renderItem]
    prop is missing, or returns [null] for some item of the slice at its
    index, the body throws in [React.cloneElement] and leaves the world as
    it was; so does the render of a list without pagination whose data
    source has such an item. *)
Theorem null_item_throws props re (split : list item) (w : world)
    (j : nat) (x : item) :
  split !! j = Some x ->
  match Props.renderItem props with
  | Some render => render x j = NNull
  | None => True
  end ->
  childrenContent props re split w = Throw CloneElementOfNull w
  /\ forall w0, source props w0 = Some split -> Props.pagination props = None ->
       exists w', List props re w0 = Throw CloneElementOfNull w'.
Proof.
  intros Hj Hnull.
  assert (Hthrow : forall w1,
    childrenContent props re split w1 = Throw CloneElementOfNull w1).
  { intros w1. unfold childrenContent.
    rewrite bool_decide_eq_true_2
      by (apply lookup_lt_Some in Hj; lia).
    assert (Hitem : (mapItems props split 0 ∅).1 !! j = Some NNull).
    { destruct (Props.renderItem props) as [render|] eqn:Hr.
      - destruct (mapItems_render props render split 0 ∅ Hr) as [_ H].
        destruct (H j x Hj) as [Hn _]. simpl in Hn. now rewrite Hn, Hnull.
      - rewrite (mapItems_missing props split 0 ∅ Hr). simpl.
        apply lookup_replicate_2. now apply lookup_lt_Some in Hj. }
    destruct (mapItems props split 0 ∅) as [items keys]. simpl in Hitem.
    now rewrite (bind_Throw _ _ _ _ _ (forEach_null_at keys items 0 j [] w1 Hitem)). }
  split; [apply Hthrow|].
  intros w0 Hs Hpg. destruct (List_run props re w0 split Hs) as [extra Hl].
  rewrite Hpg in Hl. simpl in Hl. rewrite Hthrow in Hl. eauto.
Qed.

Lemma null_item_throws_witness :
  childrenContent (propsOf None (Some (fun it i => if bool_decide (i = 1%nat)
                                                   then NNull else label it i))
                     None)
    emptyNode [entry "a"; entry "b"] (unmounted [])
  = Throw CloneElementOfNull (unmounted []).
Proof.
  exact (proj1 (null_item_throws
                  (propsOf None (Some (fun it i => if bool_decide (i = 1%nat)
                                                   then NNull else label it i))
                     None)
                  emptyNode [entry "a"; entry "b"] (unmounted []) 1%nat
                  (entry "b") eq_refl eq_refl)).
Defined.

(** * Further properties of the configuration provider *)

(** ** Chains of providers *)

(** The context value under a chain of providers. *)
Lemma observe_wrap (chain : list ProviderProps.ConfigProviderProps)
    (name : string) :
  forall (context : Context.ConfigConsumerProps)
         (legacyLocale : option Locale.Locale),
    exists c, observe context legacyLocale (wrap chain (Consumer name)) = [(name, c)]
      /\ (forall suffixCls, Context.getPrefixCls c suffixCls None
            = (if chain is [] then Context.getPrefixCls context suffixCls None
               else let P := resolvedPrefix (Context.getPrefixCls context "" None)
                               chain in
                    if ConfigProvider.nonempty suffixCls
                    then P +:+ "-" +:+ suffixCls else P))
      /\ (forall suffixCls custom, chain <> [] ->
            ConfigProvider.given (Some custom) = Some custom ->
            Context.getPrefixCls c suffixCls (Some custom) = custom)
      /\ Context.getPopupContainer c
         = innermost ProviderProps.getPopupContainer
             (Context.getPopupContainer context) chain
      /\ Context.renderEmpty c
         = innermost ProviderProps.renderEmpty (Context.renderEmpty context) chain
      /\ Context.pageHeader c
         = innermost ProviderProps.pageHeader (Context.pageHeader context) chain
      /\ (forall inner, last chain = Some inner ->
            Context.csp c = ProviderProps.csp inner
            /\ Context.autoInsertSpaceInButton c
               = ProviderProps.autoInsertSpaceInButton inner
            /\ Context.space c = ProviderProps.space inner
            /\ Context.direction c = ProviderProps.direction inner).
Proof.
  induction chain as [|props rest IH]; intros context legacyLocale.
  { exists context. simpl. repeat split; try done. }
  cbn [wrap observe flat_map]. rewrite app_nil_r.
  set (r := ConfigProvider.renderProvider props [wrap rest (Consumer name)]
              context legacyLocale).
  destruct (IH (ConfigProvider.value r) (ConfigProvider.localeProvider r))
    as (c & Hobs & Hprefix & Hcustom & Hpop & Hre & Hph & Hlast).
  exists c. split; [exact Hobs|].
  assert (Hbare : Context.getPrefixCls (ConfigProvider.value r) "" None
                  = default (Context.getPrefixCls context "" None)
                      (ConfigProvider.given (ProviderProps.prefixCls props))).
  { simpl. unfold ConfigProvider.getPrefixClsWrapper. simpl.
    now destruct (ConfigProvider.given (ProviderProps.prefixCls props)). }
  split; [|split; [|split; [|split; [|split]]]].
  - intros suffixCls. rewrite Hprefix. destruct rest as [|p2 rest].
    + simpl. unfold ConfigProvider.getPrefixClsWrapper. simpl.
      now destruct (ConfigProvider.given (ProviderProps.prefixCls props)).
    + unfold resolvedPrefix. cbn [fold_left]. now rewrite Hbare.
  - intros suffixCls custom _ Hgiven. destruct rest as [|p2 rest].
    + simpl in Hobs. inversion Hobs; subst c. simpl.
      unfold ConfigProvider.getPrefixClsWrapper. now rewrite Hgiven.
    + now apply Hcustom.
  - rewrite Hpop. reflexivity.
  - rewrite Hre. reflexivity.
  - rewrite Hph. reflexivity.
  - intros inner Hin. destruct rest as [|p2 rest].
    + simpl in Hin, Hobs. inversion Hin; subst inner.
      inversion Hobs; subst c. simpl. repeat split.
    + apply Hlast. exact Hin.
Qed.

(** X13. Under a chain of nested providers, the prefix function that a
    consumer observes returns an explicit override as it is; without one it
    joins, with a single dash, the [prefixCls] of the innermost provider
    that has one (when no provider has one, the bare prefix that the
    surrounding context gives for the empty suffix) and the suffix, and it
    returns that prefix alone for the empty suffix. *)
Theorem nested_prefix (chain : list ProviderProps.ConfigProviderProps)
    (name : string) (context : Context.ConfigConsumerProps)
    (legacyLocale : option Locale.Locale) :
  chain <> [] ->
  exists c,
    observe context legacyLocale (wrap chain (Consumer name)) = [(name, c)]
    /\ (forall suffixCls,
          Context.getPrefixCls c suffixCls None
          = (let P := resolvedPrefix (Context.getPrefixCls context "" None) chain in
             if ConfigProvider.nonempty suffixCls
             then P +:+ "-" +:+ suffixCls else P))
    /\ (forall suffixCls custom,
          ConfigProvider.given (Some custom) = Some custom ->
          Context.getPrefixCls c suffixCls (Some custom) = custom).
Proof.
  intros Hne.
  destruct (observe_wrap chain name context legacyLocale)
    as (c & Hobs & Hprefix & Hcustom & _).
  exists c. split; [exact Hobs|]. split.
  - intros suffixCls. rewrite Hprefix. now destruct chain.
  - intros suffixCls custom. now apply Hcustom.
Qed.

Lemma nested_prefix_witness :
  exists c,
    observe rootContext None
      (wrap [providerProps None None None;
             {| ProviderProps.getPopupContainer := None;
                ProviderProps.prefixCls := Some "my"%string;
                ProviderProps.renderEmpty := None;
                ProviderProps.csp := None;
                ProviderProps.autoInsertSpaceInButton := None;
                ProviderProps.form := None;
                ProviderProps.locale := None;
                ProviderProps.pageHeader := None;
                ProviderProps.componentSize := None;
                ProviderProps.direction := None;
                ProviderProps.space := None |};
             providerProps None None None]
         (Consumer "button")) = [("button"%string, c)]
    /\ Context.getPrefixCls c "btn" None = "my-btn"%string
    /\ Context.getPrefixCls c "" None = "my"%string
    /\ Context.getPrefixCls c "btn" (Some "own"%string) = "own"%string.
Proof.
  destruct (nested_prefix
              [providerProps None None None;
               {| ProviderProps.getPopupContainer := None;
                  ProviderProps.prefixCls := Some "my"%string;
                  ProviderProps.renderEmpty := None;
                  ProviderProps.csp := None;
                  ProviderProps.autoInsertSpaceInButton := None;
                  ProviderProps.form := None;
                  ProviderProps.locale := None;
                  ProviderProps.pageHeader := None;
                  ProviderProps.componentSize := None;
                  ProviderProps.direction := None;
                  ProviderProps.space := None |};
               providerProps None None None]
              "button" rootContext None ltac:(discriminate))
    as (c & Hobs & Hprefix & Hcustom).
  exists c. split; [exact Hobs|]. split; [exact (Hprefix "btn"%string)|].
  split; [exact (Hprefix ""%string)|].
  exact (Hcustom "btn"%string "own"%string eq_refl).
Defined.

(** X14. Under a chain of nested providers, a consumer observes for
    [getPopupContainer], [renderEmpty] and [pageHeader] the value of the
    innermost provider that supplies one, and the value of the surrounding
    context when no provider does: a provider that leaves such a prop out
    does not clear it.  For [csp], [autoInsertSpaceInButton], [space] and
    [direction] it observes the prop of the innermost provider, absent or
    not. *)
Theorem nested_settings (chain : list ProviderProps.ConfigProviderProps)
    (inner : ProviderProps.ConfigProviderProps)
    (name : string) (context : Context.ConfigConsumerProps)
    (legacyLocale : option Locale.Locale) :
  last chain = Some inner ->
  exists c,
    observe context legacyLocale (wrap chain (Consumer name)) = [(name, c)]
    /\ Context.getPopupContainer c
       = innermost ProviderProps.getPopupContainer
           (Context.getPopupContainer context) chain
    /\ Context.renderEmpty c
       = innermost ProviderProps.renderEmpty (Context.renderEmpty context) chain
    /\ Context.pageHeader c
       = innermost ProviderProps.pageHeader (Context.pageHeader context) chain
    /\ Context.csp c = ProviderProps.csp inner
    /\ Context.autoInsertSpaceInButton c
       = ProviderProps.autoInsertSpaceInButton inner
    /\ Context.space c = ProviderProps.space inner
    /\ Context.direction c = ProviderProps.direction inner.
Proof.
  intros Hlast.
  destruct (observe_wrap chain name context legacyLocale)
    as (c & Hobs & _ & _ & Hpop & Hre & Hph & Hin).
  destruct (Hin inner Hlast) as (Hcsp & Hauto & Hspace & Hdir).
  exists c. repeat split; assumption.
Qed.

Lemma nested_settings_witness :
  let outer :=
    {| ProviderProps.getPopupContainer := Some "body"%string;
       ProviderProps.prefixCls := None;
       ProviderProps.renderEmpty := None;
       ProviderProps.csp := Some "nonce"%string;
       ProviderProps.autoInsertSpaceInButton := Some false;
       ProviderProps.form := None;
       ProviderProps.locale := None;
       ProviderProps.pageHeader := Some true;
       ProviderProps.componentSize := None;
       ProviderProps.direction := Some Rtl;
       ProviderProps.space := None |} in
  exists c,
    observe rootContext None
      (wrap [outer; providerProps None None None] (Consumer "x"))
    = [("x"%string, c)]
    /\ Context.getPopupContainer c = Some "body"%string
    /\ Context.renderEmpty c = Some emptyNode
    /\ Context.pageHeader c = Some true
    /\ Context.csp c = None
    /\ Context.autoInsertSpaceInButton c = None
    /\ Context.space c = None
    /\ Context.direction c = None.
Proof.
  intros outer.
  exact (nested_settings [outer; providerProps None None None]
           (providerProps None None None) "x" rootContext None eq_refl).
Defined.

(** * Further properties of the class string *)

Lemma elem_of_classNames (x : string) (entries : list (string * bool)) :
  x ∈ classNames entries <-> (x, true) ∈ entries.
Proof.
  unfold classNames. rewrite list_elem_of_fmap. split.
  - intros ([y b] & -> & Hin). apply list_elem_of_filter in Hin.
    destruct Hin as [Hb Hin]. simpl in *. now subst b.
  - intros Hin. exists (x, true). split; [done|].
    apply list_elem_of_filter. now split.
Qed.

Lemma prefix_not_token (p s : string) : p <> p +:+ "-" +:+ s.
Proof.
  induction p as [|a p IH]; simpl; [discriminate|].
  intros H. inversion H as [H']. now apply IH.
Qed.

Lemma token_eq (p a b : string) (x y : bool) :
  (p +:+ a, x) = (p +:+ b, y) <-> a = b /\ x = y.
Proof.
  split.
  - intros H. inversion H as [[Ha Hx]]. now apply (inj (String.app p)) in Ha.
  - now intros [-> ->].
Qed.

Lemma dash_token_eq (p a b : string) (x : bool) :
  (p +:+ "-" +:+ a, true) = (p +:+ "-" +:+ b, x) <-> a = b /\ x = true.
Proof.
  rewrite token_eq. simpl. split.
  - intros [H ->]. now inversion H.
  - now intros [-> ->].
Qed.

(** The classes under the prefix of the list: which suffixes occur. *)
Lemma class_suffixes (context : Context.ConfigConsumerProps)
    (style : Style.StyleProps) (props : Props.ListProps) (sfx : string) :
  let prefixCls := Context.getPrefixCls context "list" (Style.prefixCls style) in
  (forall s, default ""%string (Style.className style) <> prefixCls +:+ "-" +:+ s) ->
  prefixCls +:+ "-" +:+ sfx ∈ classList context style props
  <-> (sfx = "vertical"%string /\ Style.itemLayout style = Some "vertical"%string)
      \/ (sfx = sizeCls (Style.size style) /\ sfx <> ""%string)
      \/ (sfx = "split"%string /\ Style.split style = Some true)
      \/ (sfx = "bordered"%string /\ Style.bordered style = Some true)
      \/ (sfx = "loading"%string /\ isLoading (Props.loading props) = true)
      \/ (sfx = "grid"%string /\ is_Some (Props.grid props))
      \/ (sfx = "something-after-last-item"%string
          /\ isSomethingAfterLastItem props = true)
      \/ (sfx = "rtl"%string /\ Context.direction context = Some Rtl).
Proof.
  intros prefixCls Hclass.
  unfold classList. fold prefixCls. unfold stringArg.
  rewrite elem_of_classNames, !elem_of_cons, elem_of_nil.
  assert (H1 : (prefixCls +:+ "-" +:+ sfx, true)
               = (prefixCls, ConfigProvider.nonempty prefixCls) <-> False).
  { split; [|done]. intros H. injection H as Hn _.
    symmetry in Hn. now apply prefix_not_token in Hn. }
  assert (H2 : (prefixCls +:+ "-" +:+ sfx, true)
               = (default ""%string (Style.className style),
                  ConfigProvider.nonempty (default ""%string (Style.className style)))
               <-> False).
  { split; [|done]. intros H. injection H as Hn _.
    symmetry in Hn. now apply Hclass in Hn. }
  rewrite H1, H2.
  change (prefixCls +:+ "-vertical") with (prefixCls +:+ "-" +:+ "vertical").
  change (prefixCls +:+ "-split") with (prefixCls +:+ "-" +:+ "split").
  change (prefixCls +:+ "-bordered") with (prefixCls +:+ "-" +:+ "bordered").
  change (prefixCls +:+ "-loading") with (prefixCls +:+ "-" +:+ "loading").
  change (prefixCls +:+ "-grid") with (prefixCls +:+ "-" +:+ "grid").
  change (prefixCls +:+ "-something-after-last-item")
    with (prefixCls +:+ "-" +:+ "something-after-last-item").
  change (prefixCls +:+ "-rtl") with (prefixCls +:+ "-" +:+ "rtl").
  rewrite !dash_token_eq.
  rewrite !bool_decide_eq_true.
  assert (Hsplit : default false (Style.split style) = true
                   <-> Style.split style = Some true).
  { destruct (Style.split style) as [[|]|]; simpl; split; congruence. }
  assert (Hbord : default false (Style.bordered style) = true
                  <-> Style.bordered style = Some true).
  { destruct (Style.bordered style) as [[|]|]; simpl; split; congruence. }
  assert (Hsize : sfx = sizeCls (Style.size style)
                  /\ ConfigProvider.nonempty (sizeCls (Style.size style)) = true
                  <-> sfx = sizeCls (Style.size style) /\ sfx <> ""%string).
  { unfold ConfigProvider.nonempty. rewrite negb_true_iff, bool_decide_eq_false.
    split; intros [-> H]; now split. }
  rewrite Hsplit, Hbord, Hsize. tauto.
Qed.

Lemma sizeCls_cases (size : option string) :
  sizeCls size = "lg"%string \/ sizeCls size = "sm"%string
  \/ sizeCls size = ""%string.
Proof.
  unfold sizeCls. destruct size as [s|]; [|tauto].
  repeat case_bool_decide; tauto.
Qed.

Lemma sizeCls_lg (size : option string) :
  "lg"%string = sizeCls size <-> size = Some "large"%string.
Proof.
  unfold sizeCls. destruct size as [s|]; [|split; discriminate].
  case_bool_decide as E1; [subst; now split|].
  case_bool_decide as E2; (split; intros H; [discriminate H|]);
    inversion H; congruence.
Qed.

Lemma sizeCls_sm (size : option string) :
  "sm"%string = sizeCls size <-> size = Some "small"%string.
Proof.
  unfold sizeCls. destruct size as [s|]; [|split; discriminate].
  case_bool_decide as E1; [subst; split; discriminate|].
  case_bool_decide as E2; [subst; now split|].
  split; intros H; [discriminate H|]. inversion H; congruence.
Qed.

Lemma string_app_nil_r (s : string) : s +:+ "" = s.
Proof.
  induction s as [|c s IH]; [reflexivity|].
  change (String c (s +:+ "") = String c s). now rewrite IH.
Qed.

Lemma string_app_assoc (a b c : string) : (a +:+ b) +:+ c = a +:+ b +:+ c.
Proof.
  induction a as [|x a IH]; [reflexivity|].
  change (String x ((a +:+ b) +:+ c) = String x (a +:+ b +:+ c)).
  now rewrite IH.
Qed.

Lemma string_app_nonempty_r (a b : string) :
  b <> ""%string -> a +:+ b <> ""%string.
Proof. destruct a; [now intros H | discriminate]. Qed.

Lemma spaceless_app (a b : string) :
  spaceless (a +:+ b) = spaceless a && spaceless b.
Proof.
  induction a as [|c a IH]; [reflexivity|].
  change (negb (is_space c) && spaceless (a +:+ b)
          = negb (is_space c) && spaceless a && spaceless b).
  rewrite IH. now rewrite andb_assoc.
Qed.

(** Reading on after the class read so far. *)
Lemma tokens_from_sep (cur a b : string) :
  tokens_from cur (a +:+ " " +:+ b) = tokens_from cur a ++ tokens b.
Proof.
  revert cur. induction a as [|c a IH]; intros cur; [reflexivity|].
  change (String c a +:+ " " +:+ b) with (String c (a +:+ " " +:+ b)).
  cbn [tokens_from]. destruct (is_space c); [|apply IH].
  now rewrite IH, app_assoc.
Qed.

(** The classes of names joined by spaces are the classes of the names. *)
Lemma tokens_concat (l : list string) :
  tokens (String.concat " " l) = l ≫= tokens.
Proof.
  induction l as [|x l IH]; [reflexivity|].
  destruct l as [|y l].
  - change (tokens x = tokens x ++ []). now rewrite app_nil_r.
  - change (String.concat " " (x :: y :: l))
      with (x +:+ " " +:+ String.concat " " (y :: l)).
    unfold tokens at 1. rewrite tokens_from_sep, IH. reflexivity.
Qed.

(** A name without a space is one class. *)
Lemma tokens_from_spaceless (cur t : string) :
  spaceless t = true -> cur +:+ t <> ""%string ->
  tokens_from cur t = [cur +:+ t].
Proof.
  revert cur. induction t as [|c t IH]; intros cur Hs Hne.
  - cbn [tokens_from]. rewrite string_app_nil_r in *.
    unfold ConfigProvider.nonempty.
    now rewrite bool_decide_eq_false_2.
  - cbn [spaceless] in Hs. apply andb_true_iff in Hs. destruct Hs as [Hc Hs].
    apply negb_true_iff in Hc. cbn [tokens_from]. rewrite Hc.
    rewrite IH; [now rewrite string_app_assoc | exact Hs |].
    now rewrite string_app_assoc.
Qed.

Lemma tokens_spaceless (t : string) :
  spaceless t = true -> t <> ""%string -> tokens t = [t].
Proof. intros Hs Hne. unfold tokens. now rewrite tokens_from_spaceless. Qed.

Lemma tokens_empty : tokens "" = [].
Proof. reflexivity. Qed.

Lemma spaceless_sizeCls (size : option string) : spaceless (sizeCls size) = true.
Proof.
  destruct (sizeCls_cases size) as [->|[->| ->]]; reflexivity.
Qed.

(** The classes of the class string under the prefix of the list: which
    suffixes occur.  The prefix has no space, and no class of the caller's
    class name is a class under the prefix. *)
Lemma class_tokens (context : Context.ConfigConsumerProps)
    (style : Style.StyleProps) (props : Props.ListProps) (sfx : string) :
  let prefixCls := Context.getPrefixCls context "list" (Style.prefixCls style) in
  spaceless prefixCls = true ->
  (forall t s, t ∈ tokens (default ""%string (Style.className style)) ->
     t <> prefixCls +:+ "-" +:+ s) ->
  prefixCls +:+ "-" +:+ sfx ∈ tokens (classString context style props)
  <-> (sfx = "vertical"%string /\ Style.itemLayout style = Some "vertical"%string)
      \/ (sfx = sizeCls (Style.size style) /\ sfx <> ""%string)
      \/ (sfx = "split"%string /\ Style.split style = Some true)
      \/ (sfx = "bordered"%string /\ Style.bordered style = Some true)
      \/ (sfx = "loading"%string /\ isLoading (Props.loading props) = true)
      \/ (sfx = "grid"%string /\ is_Some (Props.grid props))
      \/ (sfx = "something-after-last-item"%string
          /\ isSomethingAfterLastItem props = true)
      \/ (sfx = "rtl"%string /\ Context.direction context = Some Rtl).
Proof.
  intros prefixCls Hsp Hclass.
  set (style0 := {| Style.prefixCls := Style.prefixCls style;
                    Style.className := None;
                    Style.bordered := Style.bordered style;
                    Style.split := Style.split style;
                    Style.size := Style.size style;
                    Style.itemLayout := Style.itemLayout style |}).
  assert (Hempty : forall s : string, ""%string <> prefixCls +:+ "-" +:+ s).
  { intros s H. symmetry in H. revert H. apply string_app_nonempty_r.
    discriminate. }
  apply (iff_trans (B := prefixCls +:+ "-" +:+ sfx ∈ classList context style0 props));
    [|exact (class_suffixes context style0 props sfx Hempty)].
  unfold classString. rewrite tokens_concat, list_elem_of_bind.
  (* a class under the prefix is one class *)
  assert (Hone : forall x, spaceless x = true -> x <> ""%string ->
            tokens (prefixCls +:+ x) = [prefixCls +:+ x]).
  { intros x Hx Hne. apply tokens_spaceless.
    - now rewrite spaceless_app, Hsp, Hx.
    - now apply string_app_nonempty_r. }
  assert (Hsz : spaceless ("-" +:+ sizeCls (Style.size style)) = true
                /\ "-" +:+ sizeCls (Style.size style) <> ""%string).
  { split; [now rewrite spaceless_app, spaceless_sizeCls|].
    unfold String.append. discriminate. }
  split.
  - intros (e & Hin & He).
    unfold classList in He. fold prefixCls in He. unfold stringArg in He.
    apply elem_of_classNames in He.
    rewrite !elem_of_cons, elem_of_nil in He.
    destruct He as [He|[He|He]].
    + (* the prefix *)
      injection He as -> Hf. exfalso.
      unfold ConfigProvider.nonempty in Hf. symmetry in Hf.
      apply negb_true_iff, bool_decide_eq_false in Hf.
      rewrite (tokens_spaceless prefixCls Hsp Hf) in Hin.
      apply list_elem_of_singleton in Hin.
      symmetry in Hin. now apply prefix_not_token in Hin.
    + (* the class name of the caller *)
      injection He as -> _. exfalso. exact (Hclass _ sfx Hin eq_refl).
    + (* a class under the prefix: it is among the names, as it is *)
      assert (Hsame : prefixCls +:+ "-" +:+ sfx = e).
      { repeat (destruct He as [He|He]); try done;
          injection He as -> _;
          (rewrite Hone in Hin by (reflexivity || discriminate || apply Hsz));
          now apply list_elem_of_singleton in Hin. }
      rewrite Hsame. unfold classList. fold prefixCls. unfold stringArg.
      apply elem_of_classNames.
      rewrite !elem_of_cons, elem_of_nil. right. right. exact He.
  - intros Hin. exists (prefixCls +:+ "-" +:+ sfx).
    unfold classList in Hin. fold prefixCls in Hin. unfold stringArg in Hin.
    apply elem_of_classNames in Hin. simpl in Hin.
    rewrite !elem_of_cons, elem_of_nil in Hin.
    destruct Hin as [He|[He|He]].
    + injection He as Hn _. symmetry in Hn. now apply prefix_not_token in Hn.
    + injection He as Hn _. exfalso. exact (Hempty sfx (eq_sym Hn)).
    + assert (Hx : spaceless ("-" +:+ sfx) = true).
      { repeat (destruct He as [He|He]); try done;
          injection He as Hn _; apply (inj (String.app prefixCls)) in Hn;
          rewrite Hn; reflexivity || apply Hsz. }
      split.
      * rewrite (Hone ("-" +:+ sfx) Hx) by (unfold String.append; discriminate).
        now apply list_elem_of_singleton.
      * unfold classList. fold prefixCls. unfold stringArg.
        apply elem_of_classNames.
        rewrite !elem_of_cons, elem_of_nil. right. right.
        exact He.
Qed.

(** X15. The classes of the list tell its flags.  The classes are read off
    the class string itself, as its parts between white space.  When the
    prefix of the list holds no white space and no class within the class
    name of the caller is a class under that prefix, the class
    [<prefix>-rtl] is present in the class string exactly when the direction
    of the context is ['rtl'], [<prefix>-something-after-last-item] exactly
    when a [loadMore] node, a pagination configuration or a footer is given,
    [<prefix>-loading] exactly when the list is loading, and [<prefix>-lg]
    and [<prefix>-sm] exactly for the sizes ['large'] and ['small']. *)
Theorem class_flags (context : Context.ConfigConsumerProps)
    (style : Style.StyleProps) (props : Props.ListProps) :
  let prefixCls := Context.getPrefixCls context "list" (Style.prefixCls style) in
  let classes := tokens (classString context style props) in
  spaceless prefixCls = true ->
  (forall t s, t ∈ tokens (default ""%string (Style.className style)) ->
     t <> prefixCls +:+ "-" +:+ s) ->
  (prefixCls +:+ "-rtl" ∈ classes <-> Context.direction context = Some Rtl)
  /\ (prefixCls +:+ "-something-after-last-item" ∈ classes
      <-> present (Props.loadMore props) = true
          \/ is_Some (Props.pagination props)
          \/ present (Props.footer props) = true)
  /\ (prefixCls +:+ "-loading" ∈ classes
      <-> isLoading (Props.loading props) = true)
  /\ (prefixCls +:+ "-lg" ∈ classes <-> Style.size style = Some "large"%string)
  /\ (prefixCls +:+ "-sm" ∈ classes <-> Style.size style = Some "small"%string).
Proof.
  intros prefixCls classes Hsp Hclass.
  pose proof (fun sfx => class_tokens context style props sfx Hsp Hclass) as Hs.
  fold prefixCls in Hs. unfold classes.
  assert (Hafter : isSomethingAfterLastItem props = true
                   <-> present (Props.loadMore props) = true
                       \/ is_Some (Props.pagination props)
                       \/ present (Props.footer props) = true).
  { unfold isSomethingAfterLastItem.
    rewrite !orb_true_iff, bool_decide_eq_true. tauto. }
  split; [|split; [|split; [|split]]].
  - change (prefixCls +:+ "-rtl") with (prefixCls +:+ "-" +:+ "rtl").
    rewrite (Hs "rtl"%string). split.
    + intros H. repeat (destruct H as [H|H]); destruct H as [H1 H2];
        try discriminate H1; try exact H2.
      destruct (sizeCls_cases (Style.size style)) as [E|[E|E]];
        rewrite E in H1; discriminate H1.
    + intros H. do 7 right. now split.
  - change (prefixCls +:+ "-something-after-last-item")
      with (prefixCls +:+ "-" +:+ "something-after-last-item").
    rewrite (Hs "something-after-last-item"%string), <- Hafter. split.
    + intros H. repeat (destruct H as [H|H]); destruct H as [H1 H2];
        try discriminate H1; try exact H2.
      destruct (sizeCls_cases (Style.size style)) as [E|[E|E]];
        rewrite E in H1; discriminate H1.
    + intros H. do 6 right. left. now split.
  - change (prefixCls +:+ "-loading") with (prefixCls +:+ "-" +:+ "loading").
    rewrite (Hs "loading"%string). split.
    + intros H. repeat (destruct H as [H|H]); destruct H as [H1 H2];
        try discriminate H1; try exact H2.
      destruct (sizeCls_cases (Style.size style)) as [E|[E|E]];
        rewrite E in H1; discriminate H1.
    + intros H. do 4 right. left. now split.
  - change (prefixCls +:+ "-lg") with (prefixCls +:+ "-" +:+ "lg").
    rewrite (Hs "lg"%string). split.
    + intros H. repeat (destruct H as [H|H]); destruct H as [H1 H2];
        try discriminate H1.
      now apply sizeCls_lg in H1.
    + intros H. right. left. split; [|discriminate]. now apply sizeCls_lg.
  - change (prefixCls +:+ "-sm") with (prefixCls +:+ "-" +:+ "sm").
    rewrite (Hs "sm"%string). split.
    + intros H. repeat (destruct H as [H|H]); destruct H as [H1 H2];
        try discriminate H1.
      now apply sizeCls_sm in H1.
    + intros H. right. left. split; [|discriminate]. now apply sizeCls_sm.
Qed.

Lemma class_flags_witness :
  let style := {| Style.prefixCls := None;
                  Style.className := Some "mine other-rtl"%string;
                  Style.bordered := None; Style.split := None;
                  Style.size := Some "large"%string;
                  Style.itemLayout := None |} in
  let props := propsOf (Some (paging None None)) (Some label) None in
  let classes := tokens (classString rootContext style props) in
  ("ant-list-rtl"%string ∈ classes <-> Context.direction rootContext = Some Rtl)
  /\ ("ant-list-something-after-last-item"%string ∈ classes
      <-> present (Props.loadMore props) = true
          \/ is_Some (Props.pagination props)
          \/ present (Props.footer props) = true)
  /\ ("ant-list-lg"%string ∈ classes <-> Style.size style = Some "large"%string).
Proof.
  intros style props classes.
  destruct (class_flags rootContext style props eq_refl
              ltac:(intros t s Hin E;
                    change (t ∈ ["mine"; "other-rtl"]%string) in Hin;
                    rewrite !elem_of_cons, elem_of_nil in Hin;
                    destruct Hin as [->|[->|[]]]; discriminate E))
    as (Hrtl & Hafter & _ & Hlg & _).
  split; [exact Hrtl | split; [exact Hafter | exact Hlg]].
Defined.

(** A class name of the caller can carry a class under the prefix: with
    the class name ['x ant-list-rtl'] the class [ant-list-rtl] is in the
    class string although the context has no direction. *)
Example class_name_carries_flag :
  let style := {| Style.prefixCls := None;
                  Style.className := Some "x ant-list-rtl"%string;
                  Style.bordered := None; Style.split := None;
                  Style.size := None; Style.itemLayout := None |} in
  let props := propsOf None (Some label) None in
  classString rootContext style props = "ant-list x ant-list-rtl"%string
  /\ tokens (classString rootContext style props)
     = ["ant-list"; "x"; "ant-list-rtl"]%string
  /\ Context.direction rootContext = None.
Proof. repeat split. Qed.

(** The class string of a small, bordered list with pagination, under the
    root context. *)
Example classString_example :
  classString rootContext
    {| Style.prefixCls := None; Style.className := Some "mine"%string;
       Style.bordered := Some true; Style.split := Some true;
       Style.size := Some "small"%string; Style.itemLayout := None |}
    (propsOf (Some (paging None None)) (Some label) None)
  = "ant-list mine ant-list-sm ant-list-split ant-list-bordered ant-list-something-after-last-item"%string.
Proof. reflexivity. Qed.

(** * Further properties of pagination with a total and with defaults *)

(** X16. Pages held elsewhere: when the pagination props override [total]
    with [T] and the data source holds only the items of the current page,
    so that the start index [(c - 1) * p] of an integer page [c] between 1
    and [ceil(T / p)] is not below the length of the data source, the page
    is not clamped and the whole data source is rendered: one node per item,
    and the control, where shown, gets [c] and [T]. *)
Theorem remote_page_renders_whole_source props (pg : Props.PaginationConfig)
    render re (w : world) (ds : list item) (T p c : Z) :
  source props w = Some ds ->
  Props.pagination props = Some pg ->
  Props.total pg = Some (JS.Int T) ->
  default (shadowSize props w) (Props.pageSize pg) = JS.Int p -> 0 < p ->
  default (shadowCurrent props w) (Props.current pg) = JS.Int c ->
  c <= - ((- T) / p) ->
  Z.of_nat (length ds) <= (c - 1) * p ->
  Props.renderItem props = Some render ->
  (forall x j, render x j <> NNull) ->
  ds <> [] ->
  exists (v : view) (w' : world) (cl : list node),
    List props re w = Ok v w'
    /\ body_items (v_content v) = Some cl
    /\ length cl = length ds
    /\ (forall shown, shown_control v = Some shown ->
          pp_current shown = JS.Int c /\ pp_total shown = JS.Int T).
Proof.
  intros Hs Hpg Ht Hp Hpos Hc Hle Hstart Hr Helem Hne.
  destruct (List_run props re w ds Hs) as [extra Hl].
  set (pp0 := paginationProps (Some pg) (length ds) (shadowCurrent props w)
                (shadowSize props w)).
  assert (He : effectiveProps props w ds = pp0).
  { unfold effectiveProps. rewrite Hpg. fold pp0.
    unfold clampCurrent, largestPage.
    change (pp_pageSize pp0) with (default (shadowSize props w) (Props.pageSize pg)).
    change (pp_current pp0) with (default (shadowCurrent props w) (Props.current pg)).
    assert (Htot : pp_total pp0 = JS.Int T) by (unfold pp0; simpl; now rewrite Ht).
    rewrite Htot, Hp, Hc. simpl. destruct p as [|p'|]; try lia.
    simpl. now rewrite bool_decide_eq_false_2 by lia. }
  rewrite He, Hpg in Hl.
  assert (Hslice : slice_of (Some pg) pp0 ds = ds).
  { unfold slice_of, pageStart.
    change (pp_pageSize pp0) with (default (shadowSize props w) (Props.pageSize pg)).
    change (pp_current pp0) with (default (shadowCurrent props w) (Props.current pg)).
    rewrite Hp, Hc. simpl. now rewrite bool_decide_eq_false_2 by lia. }
  rewrite Hslice in Hl.
  destruct (childrenContent_elements props render re ds (rendered props w extra)
              Hr (fun j x _ => Helem x j) Hne) as (cl & Hcc & Hlen & _).
  rewrite Hcc in Hl. eexists _, _, cl. split; [exact Hl|].
  split; [simpl; now destruct (Props.grid props)|]. split; [exact Hlen|].
  intros shown. unfold shown_control, view_of. simpl. rewrite Hpg.
  assert (Hf : pp_current pp0 = JS.Int c /\ pp_total pp0 = JS.Int T).
  { split; [exact Hc|]. unfold pp0. simpl. now rewrite Ht. }
  destruct (position_is pp0 ["top"; "both"]%string); [now intros [= <-]|].
  destruct (present (Props.loadMore props)); [discriminate|].
  destruct (position_is pp0 ["bottom"; "both"]%string); [|discriminate].
  simpl. now intros [= <-].
Qed.

Lemma remote_page_renders_whole_source_witness :
  let pg := {| Props.current := Some (JS.Int 3); Props.pageSize := Some (JS.Int 2);
               Props.total := Some (JS.Int 10); Props.defaultCurrent := None;
               Props.defaultPageSize := None; Props.position := None;
               Props.onChange := false; Props.onShowSizeChange := false |} in
  let ds := [entry "e"; entry "f"] in
  exists (v : view) (w' : world) (cl : list node),
    List (propsOf (Some pg) (Some label) None) emptyNode (unmounted ds) = Ok v w'
    /\ body_items (v_content v) = Some cl
    /\ length cl = 2%nat
    /\ (forall shown, shown_control v = Some shown ->
          pp_current shown = JS.Int 3 /\ pp_total shown = JS.Int 10).
Proof.
  intros pg ds.
  apply (remote_page_renders_whole_source (propsOf (Some pg) (Some label) None)
           pg label emptyNode (unmounted ds) ds 10 2 3);
    try reflexivity; try lia; try discriminate.
Defined.

(** X17. The first render of uncontrolled pagination starts from the
    defaults: when the cells do not exist yet and the pagination props
    supply neither [current] nor [pageSize], the control that the render
    shows gets the page size [defaultPageSize], or 10 when that is absent, 0
    or [NaN], and the current page [defaultCurrent], or 1 when that is
    absent, 0 or [NaN], clamped to the largest page. *)
Theorem first_render_uses_defaults props (pg : Props.PaginationConfig) re
    (w w' : world) (v : view) (ds : list item) (shown : PaginationProps) :
  paginationCurrent w = None ->
  paginationSize w = None ->
  Props.pagination props = Some pg ->
  Props.current pg = None ->
  Props.pageSize pg = None ->
  source props w = Some ds ->
  List props re w = Ok v w' ->
  shown_control v = Some shown ->
  let size := match Props.defaultPageSize pg with
              | Some d => if JS.truthy d then d else JS.Int 10
              | None => JS.Int 10
              end in
  let cur := match Props.defaultCurrent pg with
             | Some d => if JS.truthy d then d else JS.Int 1
             | None => JS.Int 1
             end in
  shown = clampCurrent (paginationProps (Some pg) (length ds) cur size)
  /\ pp_pageSize shown = size
  /\ pp_current shown
     = (if JS.gt cur (largestPage shown) then largestPage shown else cur).
Proof.
  intros Hc0 Hs0 Hpg Hc Hp Hs Hrun Hshown size cur.
  destruct (List_Ok_view props re w w' v Hrun) as (ds' & content & Hs' & _ & ->).
  rewrite Hs in Hs'. inversion Hs'; subst ds'.
  set (pp := clampCurrent (paginationProps (Some pg) (length ds) cur size)).
  assert (He : effectiveProps props w ds = pp).
  { unfold effectiveProps, shadowCurrent, shadowSize, seedCurrent, seedSize.
    rewrite Hc0, Hs0, Hpg. reflexivity. }
  rewrite He in Hshown.
  assert (Heq : shown = pp).
  { revert Hshown. unfold shown_control, view_of. simpl. rewrite Hpg.
    destruct (position_is pp ["top"; "both"]%string); [now intros [= <-]|].
    destruct (present (Props.loadMore props)); [discriminate|].
    destruct (position_is pp ["bottom"; "both"]%string); [|discriminate].
    simpl. now intros [= <-]. }
  subst shown. split; [reflexivity|]. split.
  - unfold pp. rewrite clampCurrent_pageSize. simpl. now rewrite Hp.
  - unfold pp. rewrite clampCurrent_largestPage. unfold clampCurrent.
    assert (Hcur : pp_current (paginationProps (Some pg) (length ds) cur size) = cur)
      by (simpl; now rewrite Hc).
    rewrite Hcur. now destruct (JS.gt _ _).
Qed.

Lemma first_render_uses_defaults_witness :
  let pg := with_defaults (Some (JS.Int 0)) (Some (JS.Int 2)) (paging None None) in
  let ds := [entry "a"; entry "b"; entry "c"] in
  exists v w' shown,
    List (propsOf (Some pg) (Some label) None) emptyNode (unmounted ds) = Ok v w'
    /\ shown_control v = Some shown
    /\ pp_pageSize shown = JS.Int 2
    /\ pp_current shown = JS.Int 1.
Proof.
  intros pg ds.
  assert (Hrun : exists v w' shown,
    List (propsOf (Some pg) (Some label) None) emptyNode (unmounted ds) = Ok v w'
    /\ shown_control v = Some shown)
    by (eexists _, _, _; split; [vm_compute; reflexivity | reflexivity]).
  destruct Hrun as (v & w' & shown & Hrun & Hshown).
  destruct (first_render_uses_defaults (propsOf (Some pg) (Some label) None) pg
              emptyNode (unmounted ds) w' v ds shown eq_refl eq_refl eq_refl
              eq_refl eq_refl eq_refl Hrun Hshown) as (Heq & Hsize & Hcur).
  exists v, w', shown. split; [exact Hrun|]. split; [exact Hshown|].
  split; [exact Hsize|]. rewrite Hcur, Heq. reflexivity.
Defined.
